(** * The Blender MCP bridge: the TCP command server of [blender_mcp_addon.py]

    A shallow embedding of the line-delimited JSON command server that the
    addon runs inside Blender: the byte-level framing of [_handle_client],
    the response encoding done by [json.dumps], the command table of
    [_handle_command], and the start/stop operators that own the accept
    loop.

    Conventions.
    - Socket data ([bytes]) is [list byte]; a Python [str] is the list of
      its code points ([list N]).
    - Python values that reach the wire are the inductive [pyval].
    - The Blender scene, the command bodies ([cmd_*], thin calls into
      [bpy]), the JSON parser [json.loads], the cadence of Blender's timer
      queue and the peer's willingness to receive are the environment of
      the server: they are gathered in the record [environment]. *)

From Stdlib Require Import List ZArith NArith Bool String Ascii Lia.
From Stdlib.Strings Require Import Byte.
Import ListNotations.

Set Implicit Arguments.
Set Warnings "-register-all".

(* ================================================================= *)
(** ** Bytes *)

Module Bytes.

Definition bytes := list byte.

(** A [bytes] literal. *)
Definition lit (s : string) : bytes := list_byte_of_string s.

(** The frame delimiter, [b"\n"]. *)
Definition newline : byte := x0a.

Definition is_newline (c : byte) : bool := Byte.eqb c newline.

(** [b"\n" in buffer] *)
Definition has_newline (buf : bytes) : bool := existsb is_newline buf.

(** [buffer.count(b"\n")] *)
Fixpoint count_newline (buf : bytes) : nat :=
  match buf with
  | [] => 0
  | c :: rest => (if is_newline c then 1 else 0) + count_newline rest
  end.

(** [buffer.split(b"\n", 1)], for a buffer that holds a delimiter: the
    bytes before the first delimiter and the bytes after it.  [None] when
    there is no delimiter (Python would return a one-element list and
    the unpacking would fail; the caller tests [b"\n" in buffer] first). *)
Fixpoint split_newline (buf : bytes) : option (bytes * bytes) :=
  match buf with
  | [] => None
  | c :: rest =>
      if is_newline c then Some ([], rest)
      else match split_newline rest with
           | Some (line, after) => Some (c :: line, after)
           | None => None
           end
  end.

(** The bytes that [bytes.strip()] removes: space, tab, newline, carriage
    return, vertical tab, form feed. *)
Definition is_space (c : byte) : bool :=
  match c with
  | x20 | x09 | x0a | x0d | x0b | x0c => true
  | _ => false
  end.

Fixpoint lstrip (l : bytes) : bytes :=
  match l with
  | [] => []
  | c :: rest => if is_space c then lstrip rest else l
  end.

(** [line.strip()] *)
Definition strip (l : bytes) : bytes := rev (lstrip (rev (lstrip l))).

(** [not line.strip()] *)
Definition is_blank (l : bytes) : bool :=
  match strip l with [] => true | _ :: _ => false end.

End Bytes.
Import Bytes.

(* ================================================================= *)
(** ** Python values *)

Module PyVal.

(** A [str]: its code points. *)
Definition pystr := list N.

(** A [str] literal (ASCII). *)
Definition str (s : string) : pystr := map N_of_ascii (list_ascii_of_string s).

(** A [float] is carried as the numeral that [float.__repr__] prints
    for it (a decimal with an optional exponent), or one of the three
    non-finite values.  No arithmetic is done on floats here; they are
    only printed. *)
Inductive pyfloat :=
| FNaN
| FInfinity (negative : bool)
| FFinite (d : Decimal.decimal).

(** Keys of a [dict]: the key types [json.dumps] accepts, and any other
    hashable object (a tuple, say), which it refuses. *)
Inductive pykey :=
| KStr (s : pystr)
| KInt (z : Z)
| KFloat (f : pyfloat)
| KBool (b : bool)
| KNone
| KOther.

(** Values.  [PObject] is any object outside the JSON types (a [set], a
    [Vector], [bytes], ...); it carries the text [str()] gives for it. *)
Inductive pyval :=
| PNone
| PBool (b : bool)
| PInt (z : Z)
| PFloat (f : pyfloat)
| PStr (s : pystr)
| PList (items : list pyval)
| PDict (entries : list (pykey * pyval))
| PObject (shown : pystr).

Definition pystr_eqb (a b : pystr) : bool :=
  if list_eq_dec N.eq_dec a b then true else false.

(** [d.get(name)] for a [str] key: the value of the entry whose key is
    that string, [None] when there is none.  Only [str] keys compare
    equal to a [str]. *)
Fixpoint dict_lookup (entries : list (pykey * pyval)) (name : pystr)
  : option pyval :=
  match entries with
  | [] => None
  | (KStr k, v) :: rest =>
      if pystr_eqb k name then Some v else dict_lookup rest name
  | _ :: rest => dict_lookup rest name
  end.

(** [d.get(name, default)] *)
Definition dict_get (entries : list (pykey * pyval)) (name : pystr)
           (default : pyval) : pyval :=
  match dict_lookup entries name with
  | Some v => v
  | None => default
  end.

End PyVal.
Import PyVal.

(* ================================================================= *)
(** ** [json.dumps] with its default arguments

    [ensure_ascii=True], [allow_nan=True], [indent=None], separators
    [", "] and [": "], [skipkeys=False].  The result is ASCII text, so
    [.encode("utf-8")] maps each character to the byte of the same
    number; the encoder below produces those bytes directly. *)

Module Json.

(** The double quote character. *)
Definition quote : byte := x22.

Definition hex_digits : bytes := lit "0123456789abcdef".

(** ["0123456789abcdef"[n]] *)
Definition hex_digit (n : N) : byte := nth (N.to_nat n) hex_digits x30.

(** ['\\u%04x' % n] for [n < 0x10000] *)
Definition u_escape (n : N) : bytes :=
  lit "\u" ++
  [ hex_digit (N.land (N.shiftr n 12) 15);
    hex_digit (N.land (N.shiftr n 8) 15);
    hex_digit (N.land (N.shiftr n 4) 15);
    hex_digit (N.land n 15) ].

(** One character of [py_encode_basestring_ascii]: printable ASCII other
    than the quote and the backslash is copied; the seven short escapes;
    [\uXXXX] for the rest of the basic plane; a surrogate pair above. *)
Definition escape_char (c : N) : bytes :=
  if (c =? 0x22)%N then [x5c; quote]
  else if (c =? 0x5c)%N then lit "\\"
  else if ((0x20 <=? c) && (c <=? 0x7e))%N then
    match Byte.of_N c with Some b => [b] | None => [] end
  else if (c =? 0x0a)%N then lit "\n"
  else if (c =? 0x0d)%N then lit "\r"
  else if (c =? 0x09)%N then lit "\t"
  else if (c =? 0x08)%N then lit "\b"
  else if (c =? 0x0c)%N then lit "\f"
  else if (c <? 0x10000)%N then u_escape c
  else
    let v := (c - 0x10000)%N in
    u_escape (N.lor 0xd800 (N.land (N.shiftr v 10) 0x3ff)) ++
    u_escape (N.lor 0xdc00 (N.land v 0x3ff)).

(** The characters of a string, escaped, without the quotes. *)
Definition escape_chars (s : pystr) : bytes := flat_map escape_char s.

(** [py_encode_basestring_ascii(s)] *)
Definition encode_basestring_ascii (s : pystr) : bytes :=
  [quote] ++ escape_chars s ++ [quote].

Fixpoint digits (u : Decimal.uint) : bytes :=
  match u with
  | Decimal.Nil => []
  | Decimal.D0 r => x30 :: digits r
  | Decimal.D1 r => x31 :: digits r
  | Decimal.D2 r => x32 :: digits r
  | Decimal.D3 r => x33 :: digits r
  | Decimal.D4 r => x34 :: digits r
  | Decimal.D5 r => x35 :: digits r
  | Decimal.D6 r => x36 :: digits r
  | Decimal.D7 r => x37 :: digits r
  | Decimal.D8 r => x38 :: digits r
  | Decimal.D9 r => x39 :: digits r
  end.

Definition signed_digits (i : Decimal.int) : bytes :=
  match i with
  | Decimal.Pos u => digits u
  | Decimal.Neg u => lit "-" ++ digits u
  end.

(** [int.__repr__] *)
Definition int_repr (z : Z) : bytes := signed_digits (Z.to_int z).

Definition fraction (f : Decimal.uint) : bytes :=
  match f with
  | Decimal.Nil => []
  | _ => lit "." ++ digits f
  end.

Definition exponent (e : Decimal.int) : bytes :=
  match e with
  | Decimal.Pos u => lit "e+" ++ digits u
  | Decimal.Neg u => lit "e-" ++ digits u
  end.

(** [floatstr]: [float.__repr__] for a finite float, the JavaScript
    names otherwise. *)
Definition float_repr (f : pyfloat) : bytes :=
  match f with
  | FNaN => lit "NaN"
  | FInfinity false => lit "Infinity"
  | FInfinity true => lit "-Infinity"
  | FFinite (Decimal.Decimal i fr) => signed_digits i ++ fraction fr
  | FFinite (Decimal.DecimalExp i fr e) => signed_digits i ++ fraction fr ++ exponent e
  end.

(** The text of a dictionary key, before quoting; [None] is the
    [TypeError] raised for a key of another type. *)
Definition key_text (k : pykey) : option bytes :=
  match k with
  | KStr s => Some (escape_chars s)
  | KInt z => Some (int_repr z)
  | KFloat f => Some (float_repr f)
  | KBool true => Some (lit "true")
  | KBool false => Some (lit "false")
  | KNone => Some (lit "null")
  | KOther => None
  end.

(** [", ".join(parts)] *)
Fixpoint join (parts : list bytes) : bytes :=
  match parts with
  | [] => []
  | [p] => p
  | p :: rest => p ++ lit ", " ++ join rest
  end.

(** All the parts, when none failed. *)
Fixpoint all_some (l : list (option bytes)) : option (list bytes) :=
  match l with
  | [] => Some []
  | Some p :: rest =>
      match all_some rest with
      | Some ps => Some (p :: ps)
      | None => None
      end
  | None :: _ => None
  end.

Definition item (k : option bytes) (v : option bytes) : option bytes :=
  match k, v with
  | Some kb, Some vb => Some ([quote] ++ kb ++ [quote] ++ lit ": " ++ vb)
  | _, _ => None
  end.

(** [json.dumps(v)]: the text, or [None] for the [TypeError] raised on a
    value or a key that is not JSON-serializable. *)
Fixpoint dumps (v : pyval) : option bytes :=
  match v with
  | PNone => Some (lit "null")
  | PBool true => Some (lit "true")
  | PBool false => Some (lit "false")
  | PInt z => Some (int_repr z)
  | PFloat f => Some (float_repr f)
  | PStr s => Some (encode_basestring_ascii s)
  | PList items =>
      match all_some (map dumps items) with
      | Some parts => Some (lit "[" ++ join parts ++ lit "]")
      | None => None
      end
  | PDict entries =>
      match all_some (map (fun kv => item (key_text (fst kv)) (dumps (snd kv)))
                          entries) with
      | Some parts => Some (lit "{" ++ join parts ++ lit "}")
      | None => None
      end
  | PObject _ => None
  end.

(** [json.dumps(response).encode("utf-8") + b"\n"] *)
Definition encode_frame (response : pyval) : option bytes :=
  match dumps response with
  | Some payload => Some (payload ++ [newline])
  | None => None
  end.

End Json.

Import Json.

(* ================================================================= *)
(** ** [bytes.decode("utf-8")] *)

Module Utf8.

(** A continuation byte, [10xxxxxx]. *)
Definition continuation (b : byte) : bool :=
  ((0x80 <=? Byte.to_N b) && (Byte.to_N b <=? 0xbf))%N.

Definition between (lo hi : N) (b : byte) : bool :=
  ((lo <=? Byte.to_N b) && (Byte.to_N b <=? hi))%N.

Definition low6 (b : byte) : N := N.land (Byte.to_N b) 0x3f.

(** The strict decoder: [None] is [UnicodeDecodeError] (a stray
    continuation byte, an overlong form, a surrogate, a value above
    U+10FFFF, a truncated sequence). *)
Fixpoint decode (l : bytes) : option pystr :=
  match l with
  | [] => Some []
  | b0 :: r0 =>
      let n0 := Byte.to_N b0 in
      if (n0 <? 0x80)%N then option_map (cons n0) (decode r0)
      else if (n0 <? 0xc2)%N then None
      else if (n0 <? 0xe0)%N then
        match r0 with
        | b1 :: r1 =>
            if continuation b1
            then option_map
                   (cons (N.lor (N.shiftl (N.land n0 0x1f) 6) (low6 b1)))
                   (decode r1)
            else None
        | _ => None
        end
      else if (n0 <? 0xf0)%N then
        match r0 with
        | b1 :: b2 :: r2 =>
            let lo := if (n0 =? 0xe0)%N then 0xa0%N else 0x80%N in
            let hi := if (n0 =? 0xed)%N then 0x9f%N else 0xbf%N in
            if between lo hi b1 && continuation b2
            then option_map
                   (cons (N.lor (N.shiftl (N.land n0 0x0f) 12)
                            (N.lor (N.shiftl (low6 b1) 6) (low6 b2))))
                   (decode r2)
            else None
        | _ => None
        end
      else if (n0 <? 0xf5)%N then
        match r0 with
        | b1 :: b2 :: b3 :: r3 =>
            let lo := if (n0 =? 0xf0)%N then 0x90%N else 0x80%N in
            let hi := if (n0 =? 0xf4)%N then 0x8f%N else 0xbf%N in
            if between lo hi b1 && continuation b2 && continuation b3
            then option_map
                   (cons (N.lor (N.shiftl (N.land n0 0x07) 18)
                            (N.lor (N.shiftl (low6 b1) 12)
                               (N.lor (N.shiftl (low6 b2) 6) (low6 b3)))))
                   (decode r3)
            else None
        | _ => None
        end
      else None
  end.

End Utf8.

(* ================================================================= *)
(** ** The command table of [_handle_command] *)

Module Registry.

(** The command bodies, [cmd_ping] to [cmd_run_script]. *)
Inductive handler :=
| cmd_ping | cmd_list_objects | cmd_get_object_info | cmd_delete_object
| cmd_clear_scene | cmd_get_scene_info | cmd_create_cube | cmd_create_sphere
| cmd_create_uv_sphere | cmd_create_ico_sphere | cmd_create_cylinder
| cmd_create_cone | cmd_create_torus | cmd_create_plane | cmd_create_circle
| cmd_create_monkey | cmd_create_text | cmd_create_bezier_curve
| cmd_set_location | cmd_set_rotation | cmd_set_scale | cmd_translate
| cmd_rotate | cmd_scale | cmd_add_modifier | cmd_apply_modifier
| cmd_remove_modifier | cmd_boolean_operation | cmd_set_material
| cmd_set_parent | cmd_clear_parent | cmd_export_stl | cmd_export_obj
| cmd_export_fbx | cmd_export_gltf | cmd_import_stl | cmd_import_obj
| cmd_import_fbx | cmd_render_image | cmd_set_camera | cmd_add_light
| cmd_set_render_settings | cmd_run_script.

(** The [handlers] dictionary, in the order of the literal (a [dict]
    keeps insertion order, which [list(handlers.keys())] shows). *)
Definition handlers : list (pystr * handler) :=
  [ (str "ping", cmd_ping);
    (str "list_objects", cmd_list_objects);
    (str "get_object_info", cmd_get_object_info);
    (str "delete_object", cmd_delete_object);
    (str "clear_scene", cmd_clear_scene);
    (str "get_scene_info", cmd_get_scene_info);
    (str "create_cube", cmd_create_cube);
    (str "create_sphere", cmd_create_sphere);
    (str "create_uv_sphere", cmd_create_uv_sphere);
    (str "create_ico_sphere", cmd_create_ico_sphere);
    (str "create_cylinder", cmd_create_cylinder);
    (str "create_cone", cmd_create_cone);
    (str "create_torus", cmd_create_torus);
    (str "create_plane", cmd_create_plane);
    (str "create_circle", cmd_create_circle);
    (str "create_monkey", cmd_create_monkey);
    (str "create_text", cmd_create_text);
    (str "create_bezier_curve", cmd_create_bezier_curve);
    (str "set_location", cmd_set_location);
    (str "set_rotation", cmd_set_rotation);
    (str "set_scale", cmd_set_scale);
    (str "translate", cmd_translate);
    (str "rotate", cmd_rotate);
    (str "scale", cmd_scale);
    (str "add_modifier", cmd_add_modifier);
    (str "apply_modifier", cmd_apply_modifier);
    (str "remove_modifier", cmd_remove_modifier);
    (str "boolean_operation", cmd_boolean_operation);
    (str "set_material", cmd_set_material);
    (str "set_parent", cmd_set_parent);
    (str "clear_parent", cmd_clear_parent);
    (str "export_stl", cmd_export_stl);
    (str "export_obj", cmd_export_obj);
    (str "export_fbx", cmd_export_fbx);
    (str "export_gltf", cmd_export_gltf);
    (str "import_stl", cmd_import_stl);
    (str "import_obj", cmd_import_obj);
    (str "import_fbx", cmd_import_fbx);
    (str "render_image", cmd_render_image);
    (str "set_camera", cmd_set_camera);
    (str "add_light", cmd_add_light);
    (str "set_render_settings", cmd_set_render_settings);
    (str "run_script", cmd_run_script) ].

(** [handlers.keys()] *)
Definition keys : list pystr := map fst handlers.

(** Lookup of a [str] key. *)
Fixpoint find_name (table : list (pystr * handler)) (name : pystr)
  : option handler :=
  match table with
  | [] => None
  | (k, h) :: rest => if pystr_eqb k name then Some h else find_name rest name
  end.

Definition text_of_bytes (b : bytes) : pystr := map Byte.to_N b.

(** [str(f)] for a float: as [repr], with Python's own names for the
    non-finite values. *)
Definition float_str (f : pyfloat) : pystr :=
  match f with
  | FNaN => str "nan"
  | FInfinity false => str "inf"
  | FInfinity true => str "-inf"
  | FFinite _ => text_of_bytes (float_repr f)
  end.

(** The text an f-string shows for a hashable value; [None] for a list
    or a dict, which cannot be hashed.  ([json.loads] never produces a
    [PObject].) *)
Definition hashable_text (v : pyval) : option pystr :=
  match v with
  | PStr s => Some s
  | PNone => Some (str "None")
  | PBool true => Some (str "True")
  | PBool false => Some (str "False")
  | PInt z => Some (text_of_bytes (int_repr z))
  | PFloat f => Some (float_str f)
  | PObject shown => Some shown
  | PList _ | PDict _ => None
  end.

Inductive lookup :=
| Found (h : handler)
| Missing (shown : pystr)
| Unhashable.

(** [handlers.get(cmd)]: the keys are all [str], so only a [str] can be
    found; a list or dict raises [TypeError: unhashable type]. *)
Definition handlers_get (cmd : pyval) : lookup :=
  match hashable_text cmd with
  | None => Unhashable
  | Some shown =>
      match cmd with
      | PStr s =>
          match find_name handlers s with
          | Some h => Found h
          | None => Missing shown
          end
      | _ => Missing shown
      end
  end.

End Registry.
Import Registry.

(* ================================================================= *)
(** ** The environment of the server *)

(** What a command body does when called on the main thread. *)
Inductive outcome :=
| Returns (value : pyval)
    (** a normal return *)
| Raises (description trace : pystr)
    (** an [Exception]: [str(e)] and [traceback.format_exc()] *)
| Escapes.
    (** a [BaseException] outside [Exception] ([SystemExit],
        [KeyboardInterrupt]), which [except Exception] lets through *)

(** What [json.loads] does on a text. *)
Inductive loaded :=
| Loaded (data : pyval)
| JSONDecodeError (message : pystr)
    (** [str(e)] of the [json.JSONDecodeError] *)
| OtherError.
    (** any other exception (a [RecursionError] on deep nesting) *)

(** [host] is the state of Blender (the scene, [bpy.data]).
    - [call h params s]: the body of command [h] run on [params].
    - [json_loads]: the parser.
    - [served n]: whether Blender's timer queue runs the callback of the
      [n]-th request of the connection to its end before the 60 second
      wait of the connection thread is over.
    - [send_ok n]: whether [sendall] of the [n]-th response succeeds
      ([false]: [ConnectionResetError] or [BrokenPipeError]).
    Requests and responses of one connection are counted from 0; as each
    request is answered before the next is read, the number of responses
    written so far is the index of the request being served. *)
Record environment (host : Type) := {
  call : handler -> pyval -> host -> outcome * host;
  json_loads : pystr -> loaded;
  served : nat -> bool;
  send_ok : nat -> bool
}.

(* ================================================================= *)
(** ** The bridge: [_handle_command] and [_handle_client] *)

Module Bridge.

Definition entry (k : string) (v : pyval) : pykey * pyval := (KStr (str k), v).

(** [response[k]], when [response] is a dict that has the key. *)
Definition field (response : pyval) (k : string) : option pyval :=
  match response with
  | PDict entries => dict_lookup entries (str k)
  | _ => None
  end.

(** [{"ok": True, "result": value}] *)
Definition success (value : pyval) : pyval :=
  PDict [entry "ok" (PBool true); entry "result" value].

(** [{"ok": False, "error": message}] *)
Definition failure (message : pystr) : pyval :=
  PDict [entry "ok" (PBool false); entry "error" (PStr message)].

(** [{"ok": False, "error": str(e), "traceback": traceback.format_exc()}] *)
Definition handler_failure (description trace : pystr) : pyval :=
  PDict [entry "ok" (PBool false); entry "error" (PStr description);
         entry "traceback" (PStr trace)].

(** [{"ok": False, "error": f"Comando sconosciuto: '{cmd}'",
      "available": list(handlers.keys())}] *)
Definition unknown_command (shown : pystr) : pyval :=
  PDict [entry "ok" (PBool false);
         entry "error" (PStr (str "Comando sconosciuto: '" ++ shown ++ str "'"));
         entry "available" (PList (map PStr keys))].

(** [{"ok": False, "error": "Timeout 60s."}] *)
Definition timeout_response : pyval := failure (str "Timeout 60s.").

(** [{"ok": False, "error": f"JSON non valido: {e}"}] *)
Definition invalid_json (message : pystr) : pyval :=
  failure (str "JSON non valido: " ++ message).

Section WithEnvironment.

Variable host : Type.
Variable E : environment host.

(** [_handle_command(data)].  [None] is an exception leaving the
    function: [AttributeError] when [data] has no [get] (it is not a
    dict), [TypeError] when the command cannot be hashed, or what
    [except Exception] lets through. *)
Definition _handle_command (data : pyval) (s : host) : option pyval * host :=
  match data with
  | PDict entries =>
      let cmd := dict_get entries (str "command") (PStr (str "")) in
      let params := dict_get entries (str "params") (PDict []) in
      match handlers_get cmd with
      | Unhashable => (None, s)
      | Missing shown => (Some (unknown_command shown), s)
      | Found h =>
          match call E h params s with
          | (Returns value, s') => (Some (success value), s')
          | (Raises description trace, s') =>
              (Some (handler_failure description trace), s')
          | (Escapes, s') => (None, s')
          end
      end
  | _ => (None, s)
  end.

(** The hand-over to the main thread: [execute_in_main] is registered
    as a timer, the connection thread waits on [done_event] for 60
    seconds and then reads [result_holder[0]].  The slot is still
    [None] when the callback was not run to its end in time, and also
    when [_handle_command] raised inside it (the event is then never
    set and the wait runs out).  What a callback that runs after the
    wait is over does to Blender is not followed. *)
Definition dispatch (n : nat) (data : pyval) (s : host) : pyval * host :=
  if served E n then
    match _handle_command data s with
    | (Some result, s') => (result, s')
    | (None, s') => (timeout_response, s')
    end
  else (timeout_response, s).

(** The [try] block of the loop body: the response to one non-blank
    line, or [None] when an exception other than
    [json.JSONDecodeError] leaves the block. *)
Definition respond (n : nat) (line : bytes) (s : host) : option pyval * host :=
  match Utf8.decode line with
  | None => (None, s)
  | Some text =>
      match json_loads E text with
      | Loaded data => let (r, s') := dispatch n data s in (Some r, s')
      | JSONDecodeError message => (Some (invalid_json message), s)
      | OtherError => (None, s)
      end
  end.

(** A connection: Blender's state and the frames written so far. *)
Record conn := { scene : host; sent : list bytes }.

(** How the thread of a connection ends; the socket is closed in all
    three cases ([finally]). *)
Inductive ending :=
| PeerClosed
    (** [recv] returned [b""] *)
| TransportLost
    (** [ConnectionResetError] or [BrokenPipeError], swallowed *)
| Crashed.
    (** another exception, which leaves [_handle_client] *)

Inductive step :=
| Continue (c : conn)
| Stop (e : ending) (c : conn).

(** The body of the inner loop for one line. *)
Definition serve_line (line : bytes) (c : conn) : step :=
  if is_blank line then Continue c
  else
    let n := List.length (sent c) in
    match respond n line (scene c) with
    | (None, s') => Stop Crashed {| scene := s'; sent := sent c |}
    | (Some response, s') =>
        match encode_frame response with
        | None => Stop Crashed {| scene := s'; sent := sent c |}
        | Some frame =>
            if send_ok E n
            then Continue {| scene := s'; sent := sent c ++ [frame] |}
            else Stop TransportLost {| scene := s'; sent := sent c |}
        end
    end.

Inductive drained :=
| Drained (buffer : bytes) (c : conn)
| Ended (e : ending) (c : conn)
| OutOfFuel.

(** [while b"\n" in buffer: ...], bounded by [fuel] iterations. *)
Fixpoint drain (fuel : nat) (buffer : bytes) (c : conn) : drained :=
  match fuel with
  | 0 => OutOfFuel
  | S fuel' =>
      if has_newline buffer then
        match split_newline buffer with
        | Some (line, rest) =>
            match serve_line line c with
            | Continue c' => drain fuel' rest c'
            | Stop e c' => Ended e c'
            end
        | None => Drained buffer c
        end
      else Drained buffer c
  end.

(** What [recv] gives: some bytes, or [ConnectionResetError].  An
    empty chunk, like the end of the list, is the peer closing. *)
Inductive recv_event :=
| Data (chunk : bytes)
| ConnectionReset.

(** The outer loop.  Each pass of the inner loop removes a line from
    the buffer, so the length of the buffer bounds it; [None] would be
    that bound failing. *)
Fixpoint recv_loop (events : list recv_event) (buffer : bytes) (c : conn)
  : option (ending * conn) :=
  match events with
  | [] => Some (PeerClosed, c)
  | ConnectionReset :: _ => Some (TransportLost, c)
  | Data [] :: _ => Some (PeerClosed, c)
  | Data chunk :: later =>
      let buffer' := buffer ++ chunk in
      match drain (S (List.length buffer')) buffer' c with
      | Drained rest c' => recv_loop later rest c'
      | Ended e c' => Some (e, c')
      | OutOfFuel => None
      end
  end.

(** [_handle_client(client_socket)] on a fresh connection. *)
Definition _handle_client (events : list recv_event) (s : host)
  : option (ending * conn) :=
  recv_loop events [] {| scene := s; sent := [] |}.

(** *** The same, line by line

    The reading of the protocol that the chunked loop is compared
    with: cut the whole stream at the delimiters and serve the
    complete lines in order. *)

(** A stream cut at its delimiters: the complete lines, and what
    follows the last delimiter (not a line yet). *)
Fixpoint cut (stream : bytes) : list bytes * bytes :=
  match stream with
  | [] => ([], [])
  | b :: rest =>
      let (lines, tail) := cut rest in
      if is_newline b then ([] :: lines, tail)
      else match lines with
           | [] => ([], b :: tail)
           | first :: others => ((b :: first) :: others, tail)
           end
  end.

Definition complete_lines (stream : bytes) : list bytes := fst (cut stream).

Definition remainder (stream : bytes) : bytes := snd (cut stream).

Fixpoint serve_lines (lines : list bytes) (c : conn) : step :=
  match lines with
  | [] => Continue c
  | line :: later =>
      match serve_line line c with
      | Continue c' => serve_lines later c'
      | Stop e c' => Stop e c'
      end
  end.

(** The end of a connection whose lines have been served. *)
Definition closing (r : step) : ending * conn :=
  match r with
  | Continue c => (PeerClosed, c)
  | Stop e c => (e, c)
  end.

End WithEnvironment.

Arguments Continue {host}.
Arguments Stop {host}.
Arguments Drained {host}.
Arguments Ended {host}.
Arguments OutOfFuel {host}.

End Bridge.
Import Bridge.

(* ================================================================= *)
(** ** The server and its two operators *)

Module Lifecycle.

(** Where a thread running [_server_loop] is: before [bind]/[listen], or
    in the [while _running] loop. *)
Inductive phase := Binding | Accepting.

(** The module globals [_running] and [_server_thread], and the threads
    that are running [_server_loop] (a thread is known by its number,
    in order of creation; [created] is the number of threads made so
    far). *)
Record server := {
  _running : bool;
  _server_thread : option nat;
  loops : list (nat * phase);
  created : nat
}.

(** The state of the module when it is loaded. *)
Definition initial : server :=
  {| _running := false; _server_thread := None; loops := []; created := 0 |}.

Inductive status := FINISHED | CANCELLED.
Inductive level := INFO | WARNING.

(** What an operator gives back: the returned set and the message
    passed to [self.report]. *)
Record report := { result : status; severity : level; message : string }.

(** What the stop operator reports when there is nothing to stop. *)
Definition not_running : report :=
  {| result := CANCELLED; severity := WARNING;
     message := "Server non in esecuzione." |}.

(** What the start operator reports when the server is up already. *)
Definition already_running : report :=
  {| result := CANCELLED; severity := WARNING;
     message := "Server gia in esecuzione." |}.

(** [_running = True; _server_thread = Thread(target=_server_loop);
    _server_thread.start()] *)
Definition spawn_server_thread (s : server) : server :=
  {| _running := true;
     _server_thread := Some (created s);
     loops := loops s ++ [(created s, Binding)];
     created := S (created s) |}.

(** [MCP_OT_StartServer.execute] *)
Definition MCP_OT_StartServer_execute (s : server) : report * server :=
  if _running s then (already_running, s)
  else
    ({| result := FINISHED; severity := INFO;
        message := "Server MCP avviato su 127.0.0.1:9876" |},
     spawn_server_thread s).

(** [MCP_OT_StopServer.execute] *)
Definition MCP_OT_StopServer_execute (s : server) : report * server :=
  if negb (_running s) then (not_running, s)
  else
    ({| result := FINISHED; severity := INFO;
        message := "Server MCP arrestato." |},
     {| _running := false;
        _server_thread := _server_thread s;
        loops := loops s;
        created := created s |}).

(** The part of [register()] that touches the server: it starts a
    thread without looking at [_running]. *)
Definition register (s : server) : server := spawn_server_thread s.

(** The part of [unregister()] that touches the server. *)
Definition unregister (s : server) : server :=
  {| _running := false;
     _server_thread := _server_thread s;
     loops := loops s;
     created := created s |}.

(** What [accept] does in one pass of the loop. *)
Inductive accepted := Client | TimedOut | Failed.

Definition phase_of (s : server) (t : nat) : option phase :=
  match find (fun l => Nat.eqb (fst l) t) (loops s) with
  | Some l => Some (snd l)
  | None => None
  end.

Definition without (t : nat) (l : list (nat * phase)) : list (nat * phase) :=
  filter (fun l => negb (Nat.eqb (fst l) t)) l.

Definition set_loops (s : server) (l : list (nat * phase)) : server :=
  {| _running := _running s; _server_thread := _server_thread s;
     loops := l; created := created s |}.

(** A step of thread [t] in [_server_loop]:
    - [bound ok]: [bind] and [listen]; an [OSError] ends the thread;
    - [poll a]: the test of [while _running] and, if it holds, one
      [accept]; the thread ends when the flag is down or [accept]
      raises an [OSError] other than the timeout. *)
Definition bound (t : nat) (ok : bool) (s : server) : server :=
  match phase_of s t with
  | Some Binding =>
      if ok
      then set_loops s (map (fun l => if Nat.eqb (fst l) t
                                      then (t, Accepting) else l) (loops s))
      else set_loops s (without t (loops s))
  | _ => s
  end.

Definition poll (t : nat) (a : accepted) (s : server) : server :=
  match phase_of s t with
  | Some Accepting =>
      if _running s then
        match a with
        | Client | TimedOut => s
        | Failed => set_loops s (without t (loops s))
        end
      else set_loops s (without t (loops s))
  | _ => s
  end.

(** What can happen to the server, in any order. *)
Inductive event :=
| Start
| Halt
| Register
| Unregister
| Bound (t : nat) (ok : bool)
| Poll (t : nat) (a : accepted).

Definition apply (ev : event) (s : server) : server :=
  match ev with
  | Start => snd (MCP_OT_StartServer_execute s)
  | Halt => snd (MCP_OT_StopServer_execute s)
  | Register => register s
  | Unregister => unregister s
  | Bound t ok => bound t ok s
  | Poll t a => poll t a s
  end.

Fixpoint run (evs : list event) (s : server) : server :=
  match evs with
  | [] => s
  | ev :: later => run later (apply ev s)
  end.

(** The number of threads in [_server_loop]. *)
Definition accept_loops (s : server) : nat := List.length (loops s).

(** An event that neither lowers the flag nor starts a thread behind
    the operator's back. *)
Definition start_or_thread (ev : event) : bool :=
  match ev with
  | Start | Bound _ _ | Poll _ _ => true
  | Halt | Register | Unregister => false
  end.

(** With the flag down there is no thread in the loop; with the flag up
    there is at most one. *)
Definition single_loop (s : server) : Prop :=
  accept_loops s <= (if _running s then 1 else 0).

(** Two starts, the steps of the thread of the first, and a third start. *)
Definition starts : list event :=
  [Start; Bound 0 true; Start; Poll 0 TimedOut; Poll 0 Client; Start].

End Lifecycle.

(* ================================================================= *)
(** ** A concrete environment for the examples *)

Module Example.

(** Blender's state is the number of command bodies that have run. *)
Definition host := nat.

Definition one (k : string) (v : pyval) : pyval := PDict [entry k v].

(** [ping] answers; [run_script] is the run of a script that leaves a
    list holding a set in [result] (a list passes the [isinstance] test
    of [cmd_run_script], so it is returned as it is); [delete_object]
    is the call for an object that does not exist; the other bodies
    are not used. *)
Definition bodies (h : handler) (params : pyval) (s : host) : outcome * host :=
  match h with
  | cmd_ping =>
      (Returns (PDict [entry "status" (PStr (str "alive"));
                       entry "blender_version" (PStr (str "4.2.0"))]), S s)
  | cmd_run_script =>
      (Returns (one "script_result" (PList [PObject (str "{1, 2}")])), S s)
  | cmd_delete_object =>
      (Raises (str "Oggetto 'Cube' non trovato.")
              (str "Traceback (most recent call last): ValueError"), S s)
  | _ => (Raises (str "unused") (str "unused"), S s)
  end.

(** A request as the MCP server sends it:
    [{"command": command, "params": params}]. *)
Definition fields (command : string) (params : pyval) : list (pykey * pyval) :=
  [entry "command" (PStr (str command)); entry "params" params].

Definition request (command : string) (params : pyval) : pyval :=
  PDict (fields command params).

Definition ping : pyval := request "ping" (PDict []).
Definition fly : pyval := request "fly" (PDict []).
Definition delete_cube : pyval :=
  request "delete_object" (one "name" (PStr (str "Cube"))).
Definition script : pyval :=
  request "run_script" (one "script" (PStr (str "result = [{1, 2}]"))).
Definition not_an_object : pyval := PList [PInt 1].

Definition known : list pyval := [ping; fly; delete_cube; script; not_an_object].

(** [json.loads] on the texts of the examples: the text of one of the
    values above parses to that value; the other text used, [oops],
    is not JSON. *)
Definition loads (text : pystr) : loaded :=
  match find (fun v => match dumps v with
                       | Some b => pystr_eqb (text_of_bytes b) text
                       | None => false
                       end) known with
  | Some v => Loaded v
  | None => JSONDecodeError (str "Expecting value: line 1 column 1 (char 0)")
  end.

(** An error text of two lines, the second starting with an accented
    letter. *)
Definition two_lines : pystr := str "line 1" ++ [10; 233]%N ++ str "line 2".

(** The text of a request, and its line on the wire. *)
Definition payload (v : pyval) : bytes :=
  match dumps v with Some b => b | None => [] end.

Definition line_of (v : pyval) : bytes := payload v ++ [newline].

(** The lines of [ping] and [fly], received in three pieces. *)
Definition pieces : list bytes :=
  [ firstn 5 (line_of ping);
    skipn 5 (line_of ping) ++ firstn 3 (line_of fly);
    skipn 3 (line_of fly) ].

(** Every callback runs in time, every write succeeds. *)
Definition calm : environment host :=
  {| call := bodies; json_loads := loads;
     served := fun _ => true; send_ok := fun _ => true |}.


(** The peer is gone when the second response is written. *)
Definition gone : environment host :=
  {| call := bodies; json_loads := loads;
     served := fun _ => true; send_ok := fun n => Nat.eqb n 0 |}.

End Example.

(* ================================================================= *)
(** ** Truth values *)

Module Truth.

Fixpoint all_zero (u : Decimal.uint) : bool :=
  match u with
  | Decimal.Nil => true
  | Decimal.D0 r => all_zero r
  | _ => false
  end.

Definition unsigned (i : Decimal.int) : Decimal.uint :=
  match i with Decimal.Pos u | Decimal.Neg u => u end.

(** [f == 0.0] for a float carried as its numeral. *)
Definition float_is_zero (f : pyfloat) : bool :=
  match f with
  | FNaN | FInfinity _ => false
  | FFinite (Decimal.Decimal i fr) | FFinite (Decimal.DecimalExp i fr _) =>
      all_zero (unsigned i) && all_zero fr
  end.

(** [bool(v)], what [if v] and [not v] test: [None], [False], zero and
    the empty string, list and dict are false.  (An object outside the
    JSON types is taken as true; [json.loads] never produces one.) *)
Definition truthy (v : pyval) : bool :=
  match v with
  | PNone => false
  | PBool b => b
  | PInt z => negb (Z.eqb z 0)
  | PFloat f => negb (float_is_zero f)
  | PStr [] => false
  | PStr (_ :: _) => true
  | PList [] => false
  | PList (_ :: _) => true
  | PDict [] => false
  | PDict (_ :: _) => true
  | PObject _ => true
  end.

End Truth.
Import Truth.

(* ================================================================= *)
(** ** The client: [_send_command] of [blender_mcp_server.py] *)

Module Client.

(** What [sock.connect] does. *)
Inductive connection :=
| Connected
| Refused
    (** [ConnectionRefusedError] *)
| Unreachable.
    (** another error (a timeout, say) *)

(** The exceptions that leave [_send_command]. *)
Inductive raised :=
| RuntimeError (argument : pyval)
    (** raised by the function itself, with its argument *)
| NotSerializable
    (** [TypeError] of [json.dumps] on the request *)
| SocketError
    (** raised by [connect], [sendall] or [recv] and not caught *)
| BadUnicode
    (** [UnicodeDecodeError] *)
| BadJSON (message : pystr)
    (** [json.JSONDecodeError] *)
| LoadsError
    (** another exception of [json.loads] *)
| NotADict.
    (** [AttributeError]: the response has no [get] *)

Inductive reply :=
| Gives (value : pyval)
| Raise (e : raised).

(** The other end, as the client sees it: what [connect] does, whether
    [sendall] succeeds, what the calls of [recv] return, and the parser. *)
Record peer := {
  connect : connection;
  sendall_ok : bool;
  incoming : list recv_event;
  loads : pystr -> loaded
}.

Definition refused_text : pystr :=
  str "Impossibile connettersi a Blender. Assicurati che Blender sia aperto e l'addon MCP sia attivo (porta 9876).".

(** [{"command": command, "params": params}] *)
Definition request (command : pystr) (params : option pyval) : pyval :=
  PDict [entry "command" (PStr command);
         entry "params" (match params with
                         | Some p => p
                         | None => PDict []
                         end)].

(** [(json.dumps(...) + "\n").encode("utf-8")]; the text is ASCII. *)
Definition request_line (command : pystr) (params : option pyval)
  : option bytes :=
  encode_frame (request command params).

(** [while b"\n" not in buffer: ...]: the buffer when the loop is left,
    [None] when [recv] raises. *)
Fixpoint receive (events : list recv_event) (buffer : bytes) : option bytes :=
  if has_newline buffer then Some buffer
  else
    match events with
    | [] => Some buffer
    | ConnectionReset :: _ => None
    | Data [] :: _ => Some buffer
    | Data chunk :: later => receive later (buffer ++ chunk)
    end.

(** [buffer.split(b"\n")[0]] *)
Fixpoint first_line (buffer : bytes) : bytes :=
  match buffer with
  | [] => []
  | c :: rest => if is_newline c then [] else c :: first_line rest
  end.

(** What the function makes of the parsed response. *)
Definition interpret (response : pyval) : reply :=
  match response with
  | PDict entries =>
      if negb (truthy (dict_get entries (str "ok") (PBool false)))
      then Raise (RuntimeError
                    (dict_get entries (str "error")
                       (PStr (str "Errore sconosciuto da Blender"))))
      else Gives (dict_get entries (str "result") (PDict []))
  | _ => Raise NotADict
  end.

(** The bytes of the line, decoded and parsed. *)
Definition parse (P : peer) (line : bytes) : reply :=
  match Utf8.decode line with
  | None => Raise BadUnicode
  | Some text =>
      match loads P text with
      | Loaded response => interpret response
      | JSONDecodeError message => Raise (BadJSON message)
      | OtherError => Raise LoadsError
      end
  end.

(** [_send_command(command, params)] *)
Definition _send_command (P : peer) (command : pystr) (params : option pyval)
  : reply :=
  match request_line command params with
  | None => Raise NotSerializable
  | Some _ =>
      match connect P with
      | Refused => Raise (RuntimeError (PStr refused_text))
      | Unreachable => Raise SocketError
      | Connected =>
          if sendall_ok P then
            match receive (incoming P) [] with
            | None => Raise SocketError
            | Some buffer => parse P (first_line buffer)
            end
          else Raise SocketError
      end
  end.

(** The command each tool of the MCP server sends, in the order of the
    file. *)
Definition tool_commands : list pystr :=
  map str
    [ "ping"; "list_objects"; "get_object_info"; "delete_object";
      "clear_scene"; "get_scene_info"; "create_cube"; "create_uv_sphere";
      "create_ico_sphere"; "create_cylinder"; "create_cone"; "create_torus";
      "create_plane"; "create_monkey"; "create_text"; "set_location";
      "set_rotation"; "set_scale"; "translate"; "rotate"; "scale";
      "add_modifier"; "apply_modifier"; "remove_modifier";
      "boolean_operation"; "set_material"; "export_stl"; "export_obj";
      "export_fbx"; "export_gltf"; "import_stl"; "import_obj"; "import_fbx";
      "render_image"; "set_camera"; "add_light"; "set_render_settings";
      "run_script"; "set_parent"; "clear_parent" ]%string.

(** Whether the table of the addon has the name. *)
Definition has_handler (name : pystr) : bool :=
  match find_name handlers name with Some _ => true | None => false end.

End Client.

(* ================================================================= *)
(** ** The panel: [MCP_PT_Panel.draw] *)

Module Panel.
Import Lifecycle.

(** What [draw] puts in the layout: a label and one operator button,
    each with its icon. *)
Record layout := {
  label_text : string;
  label_icon : string;
  button : string;
  button_icon : string
}.

(** [MCP_PT_Panel.draw] *)
Definition draw (s : server) : layout :=
  if _running s then
    {| label_text := "Attivo su 127.0.0.1:9876"; label_icon := "CHECKMARK";
       button := "mcp.stop_server"; button_icon := "PAUSE" |}
  else
    {| label_text := "Server non attivo"; label_icon := "ERROR";
       button := "mcp.start_server"; button_icon := "PLAY" |}.

(** Pressing a button runs [execute] of the operator whose [bl_idname]
    it names. *)
Definition press (idname : string) (s : server) : option (report * server) :=
  if String.eqb idname "mcp.start_server"
  then Some (MCP_OT_StartServer_execute s)
  else if String.eqb idname "mcp.stop_server"
  then Some (MCP_OT_StopServer_execute s)
  else None.

(** A step of a server thread, as opposed to an operator or
    [register]/[unregister]. *)
Definition thread_step (ev : event) : bool :=
  match ev with
  | Bound _ _ | Poll _ _ => true
  | _ => false
  end.

End Panel.

(* ================================================================= *)
(** ** Command bodies that only look objects up and remove them *)

Module Scene.

(** An object of the file, with the two attributes these bodies read:
    [obj.name] and [obj.type]. *)
Record object := { obj_name : pystr; obj_type : pystr }.

Definition object_eqb (a b : object) : bool :=
  pystr_eqb (obj_name a) (obj_name b) && pystr_eqb (obj_type a) (obj_type b).

(** [bpy.data.objects], in its order. *)
Definition objects := list object.

(** [bpy.data.objects.get(name)] for a [str] *)
Definition objects_get (objs : objects) (name : pystr) : option object :=
  find (fun o => pystr_eqb (obj_name o) name) objs.

(** [bpy.data.objects.remove(obj, do_unlink=True)] *)
Fixpoint objects_remove (objs : objects) (obj : object) : objects :=
  match objs with
  | [] => []
  | o :: rest => if object_eqb o obj then rest else o :: objects_remove rest obj
  end.

(** The exceptions of these bodies.  Only the text of [ValueError] is
    written by the addon itself. *)
Inductive raised :=
| ValueError (message : pystr)
| KeyError (key : pystr)
    (** [params[key]] on a dict without [key] *)
| TypeError
    (** [params[...]] on a value that is no dict *)
| AttributeError
    (** [params.get] on a value that is no dict *)
| Rejected.
    (** raised inside [bpy]: [objects.get] takes a [str] key only *)

Inductive found :=
| Object (o : object)
| Missing (e : raised).

(** [_get_obj(name)] *)
Definition _get_obj (objs : objects) (name : pyval) : found :=
  match name with
  | PStr text =>
      match objects_get objs text with
      | Some o => Object o
      | None =>
          Missing (ValueError (str "Oggetto '" ++ text ++ str "' non trovato."))
      end
  | _ => Missing Rejected
  end.

Inductive body :=
| Done (value : pyval)
| Fails (e : raised).

(** [cmd_delete_object(params)] *)
Definition cmd_delete_object (params : pyval) (objs : objects)
  : body * objects :=
  match params with
  | PDict entries =>
      match dict_lookup entries (str "name") with
      | None => (Fails (KeyError (str "name")), objs)
      | Some name =>
          match _get_obj objs name with
          | Missing e => (Fails e, objs)
          | Object obj =>
              (Done (PDict [entry "deleted" name]), objects_remove objs obj)
          end
      end
  | _ => (Fails TypeError, objs)
  end.

(** The two [continue] tests of the loop of [cmd_clear_scene]. *)
Definition spared (keep_camera keep_lights : pyval) (o : object) : bool :=
  (truthy keep_camera && pystr_eqb (obj_type o) (str "CAMERA"))
  || (truthy keep_lights && pystr_eqb (obj_type o) (str "LIGHT")).

(** [for obj in list(bpy.data.objects): ...]: the loop runs over a copy
    of the collection and removes from the collection itself. *)
Fixpoint clear_loop (keep_camera keep_lights : pyval) (copy : list object)
         (removed : list pystr) (objs : objects) : list pystr * objects :=
  match copy with
  | [] => (removed, objs)
  | o :: later =>
      if spared keep_camera keep_lights o
      then clear_loop keep_camera keep_lights later removed objs
      else clear_loop keep_camera keep_lights later
             (removed ++ [obj_name o]) (objects_remove objs o)
  end.

(** [{"removed": removed, "count": len(removed)}] *)
Definition cleared (removed : list pystr) : pyval :=
  PDict [entry "removed" (PList (map PStr removed));
         entry "count" (PInt (Z.of_nat (List.length removed)))].

(** [cmd_clear_scene(params)] *)
Definition cmd_clear_scene (params : pyval) (objs : objects)
  : body * objects :=
  match params with
  | PDict entries =>
      let keep_camera := dict_get entries (str "keep_camera") (PBool true) in
      let keep_lights := dict_get entries (str "keep_lights") (PBool true) in
      let (removed, objs') := clear_loop keep_camera keep_lights objs [] objs in
      (Done (cleared removed), objs')
  | _ => (Fails AttributeError, objs)
  end.


(** A camera, a light and two meshes. *)
Definition studio : objects :=
  [ {| obj_name := str "Camera"; obj_type := str "CAMERA" |};
    {| obj_name := str "Cube"; obj_type := str "MESH" |};
    {| obj_name := str "Light"; obj_type := str "LIGHT" |};
    {| obj_name := str "Suzanne"; obj_type := str "MESH" |} ].

End Scene.

(* ================================================================= *)
(** ** Words for what is on the wire *)

Module Wire.

(** A printable ASCII character, from the space to the tilde. *)
Definition printable (c : byte) : bool :=
  ((0x20 <=? Byte.to_N c) && (Byte.to_N c <=? 0x7e))%N.


(** Lines sent one after the other, each closed by the delimiter. *)
Definition stream_of (lines : list bytes) : bytes :=
  List.concat (map (fun line => line ++ [newline]) lines).

(** The lines that are requests: the ones the loop does not skip. *)
Definition requests (lines : list bytes) : list bytes :=
  filter (fun line => negb (is_blank line)) lines.

(** The connection as a step of the loop leaves it. *)
Definition reached (host : Type) (r : step host) : conn host :=
  match r with
  | Continue c => c
  | Stop _ c => c
  end.

End Wire.
Import Wire.

(* ================================================================= *)
(** ** A concrete peer for the examples of the client *)

Module ClientExample.
Import Client.

(** The response of the addon to [ping] when all goes well. *)
Definition pong : pyval := fst (dispatch Example.calm 0 Example.ping 0).

(** A peer that accepts the connection and the request and sends the
    given pieces; the parser knows the text of [response] and takes
    anything else as not being JSON. *)
Definition answering (response : pyval) (pieces : list bytes) : peer :=
  {| connect := Connected;
     sendall_ok := true;
     incoming := map Data pieces;
     loads := fun text =>
                if pystr_eqb text (text_of_bytes (Example.payload response))
                then Loaded response
                else JSONDecodeError
                       (str "Expecting value: line 1 column 1 (char 0)") |}.

(** The frame of [pong] in two pieces, the second followed by the
    start of another frame. *)
Definition two_pieces : list bytes :=
  [ firstn 20 (Example.line_of pong);
    skipn 20 (Example.line_of pong) ++ firstn 7 (Example.line_of pong) ].

(** The first bytes of the frame of [pong], and nothing more. *)
Definition cut_short : list bytes := [firstn 20 (Example.line_of pong)].


End ClientExample.

(* ================================================================= *)
(** * Properties *)

(** ** Delimiters in byte strings *)

Section Delimiters.

Lemma has_newline_app (a b : bytes) :
  has_newline (a ++ b) = has_newline a || has_newline b.
Proof. apply existsb_app. Qed.

Lemma count_newline_app (a b : bytes) :
  count_newline (a ++ b) = count_newline a + count_newline b.
Proof.
  induction a as [|c a IH]; simpl; [reflexivity|].
  rewrite IH. lia.
Qed.

Lemma count_newline_free (a : bytes) :
  has_newline a = false -> count_newline a = 0.
Proof.
  induction a as [|c a IH]; simpl; [reflexivity|].
  intros H. apply orb_false_iff in H as [Hc Ha].
  rewrite Hc. simpl. auto.
Qed.

Lemma has_newline_concat (parts : list bytes) :
  Forall (fun p => has_newline p = false) parts ->
  has_newline (List.concat parts) = false.
Proof.
  induction 1 as [|p parts Hp _ IH]; simpl; [reflexivity|].
  rewrite has_newline_app, Hp, IH. reflexivity.
Qed.

(** A byte at or above the space is not the delimiter. *)
Lemma printable_not_newline (c : N) (b : byte) :
  Byte.of_N c = Some b -> (0x20 <= c)%N -> is_newline b = false.
Proof.
  intros Hb Hc. unfold is_newline.
  destruct (Byte.eqb b newline) eqn:Heq; [|reflexivity].
  apply Byte.byte_dec_bl in Heq. subst b.
  apply Byte.to_of_N in Hb. simpl in Hb. subst c. lia.
Qed.

End Delimiters.

(** ** The text written by [json.dumps] holds no delimiter *)

Section Encoding.

Lemma hex_digit_free (n : N) : is_newline (hex_digit n) = false.
Proof.
  unfold hex_digit.
  destruct (nth_in_or_default (N.to_nat n) hex_digits x30) as [Hin | ->];
    [|reflexivity].
  revert Hin. generalize (nth (N.to_nat n) hex_digits x30). intros b Hin.
  simpl in Hin.
  repeat (destruct Hin as [<- | Hin]; [reflexivity|]).
  destruct Hin.
Qed.

Lemma u_escape_free (n : N) : has_newline (u_escape n) = false.
Proof.
  unfold u_escape. rewrite has_newline_app. simpl.
  rewrite !hex_digit_free. reflexivity.
Qed.

Lemma escape_char_free (c : N) : has_newline (escape_char c) = false.
Proof.
  unfold escape_char.
  repeat match goal with
         | |- context [if ?t then _ else _] => destruct t eqn:?
         end; try reflexivity; try apply u_escape_free.
  - destruct (Byte.of_N c) as [b|] eqn:Hb; [|reflexivity].
    simpl. rewrite orb_false_r.
    apply andb_true_iff in Heqb1 as [Hlo _].
    apply N.leb_le in Hlo.
    eapply printable_not_newline; eauto.
  - rewrite has_newline_app, !u_escape_free. reflexivity.
Qed.

Lemma escape_chars_free (s : pystr) : has_newline (escape_chars s) = false.
Proof.
  unfold escape_chars. induction s as [|c s IH]; simpl; [reflexivity|].
  rewrite has_newline_app, escape_char_free, IH. reflexivity.
Qed.

Lemma encode_basestring_ascii_free (s : pystr) :
  has_newline (encode_basestring_ascii s) = false.
Proof.
  unfold encode_basestring_ascii.
  rewrite !has_newline_app, escape_chars_free. reflexivity.
Qed.

Lemma digits_free (u : Decimal.uint) : has_newline (digits u) = false.
Proof. induction u; simpl; auto. Qed.

Lemma signed_digits_free (i : Decimal.int) :
  has_newline (signed_digits i) = false.
Proof.
  destruct i; simpl; apply digits_free.
Qed.

Lemma int_repr_free (z : Z) : has_newline (int_repr z) = false.
Proof. apply signed_digits_free. Qed.

Lemma fraction_free (f : Decimal.uint) : has_newline (fraction f) = false.
Proof.
  destruct f; try reflexivity;
    unfold fraction; rewrite has_newline_app, digits_free; reflexivity.
Qed.

Lemma exponent_free (e : Decimal.int) : has_newline (exponent e) = false.
Proof.
  destruct e; unfold exponent; rewrite has_newline_app, digits_free;
    reflexivity.
Qed.

Lemma float_repr_free (f : pyfloat) : has_newline (float_repr f) = false.
Proof.
  destruct f as [|[]|[i fr|i fr e]]; try reflexivity; unfold float_repr;
    rewrite ?has_newline_app, ?signed_digits_free, ?fraction_free,
      ?exponent_free; reflexivity.
Qed.

Lemma key_text_free (k : pykey) (b : bytes) :
  key_text k = Some b -> has_newline b = false.
Proof.
  destruct k as [s|z|f|[]| |]; simpl; intros H; inversion H; subst;
    auto using escape_chars_free, int_repr_free, float_repr_free.
Qed.

Lemma join_free (parts : list bytes) :
  Forall (fun p => has_newline p = false) parts ->
  has_newline (join parts) = false.
Proof.
  induction 1 as [|p parts Hp Hparts IH]; [reflexivity|].
  destruct parts as [|q parts]; [exact Hp|].
  change (join (p :: q :: parts)) with (p ++ lit ", " ++ join (q :: parts)).
  rewrite !has_newline_app, Hp, IH. reflexivity.
Qed.

Lemma all_some_Forall (P : bytes -> Prop) (l : list (option bytes)) :
  Forall (fun o => forall b, o = Some b -> P b) l ->
  forall parts, all_some l = Some parts -> Forall P parts.
Proof.
  induction 1 as [|o l Ho _ IH]; simpl; intros parts H.
  - inversion H. constructor.
  - destruct o as [p|]; [|discriminate].
    destruct (all_some l) as [ps|]; [|discriminate].
    inversion H; subst. constructor; auto.
Qed.

Lemma item_free (k v : option bytes) (b : bytes) :
  (forall kb, k = Some kb -> has_newline kb = false) ->
  (forall vb, v = Some vb -> has_newline vb = false) ->
  item k v = Some b -> has_newline b = false.
Proof.
  intros Hk Hv. destruct k as [kb|], v as [vb|]; unfold item;
    try discriminate.
  intros H. injection H as <-.
  cbn. rewrite has_newline_app, (Hk kb eq_refl). cbn.
  exact (Hv vb eq_refl).
Qed.

(** Induction on values that reaches inside lists and dicts. *)
Lemma dumps_free :
  forall (v : pyval) (b : bytes), dumps v = Some b -> has_newline b = false.
Proof.
  fix dumps_free 1.
  intros v. destruct v as [|[]|z|f|s|items|entries|shown]; cbn [dumps]; intros b H.
  1-6: injection H as <-;
    auto using int_repr_free, float_repr_free, encode_basestring_ascii_free.
  3: discriminate.
  - destruct (all_some (map dumps items)) as [parts|] eqn:Hparts;
      [|discriminate].
    injection H as <-.
    cbn. rewrite has_newline_app. cbn. rewrite orb_false_r.
    apply join_free.
    apply (all_some_Forall (fun p => has_newline p = false)) in Hparts;
      [exact Hparts|].
    clear Hparts. induction items as [|x items IH]; constructor.
    + apply dumps_free.
    + exact IH.
  - match type of H with
    | match all_some ?l with _ => _ end = _ =>
        destruct (all_some l) as [parts|] eqn:Hparts; [|discriminate]
    end.
    injection H as <-.
    cbn. rewrite has_newline_app. cbn. rewrite orb_false_r.
    apply join_free.
    apply (all_some_Forall (fun p => has_newline p = false)) in Hparts;
      [exact Hparts|].
    clear Hparts. induction entries as [|[k x] entries IH]; constructor.
    + intros b. apply item_free.
      * apply key_text_free.
      * apply dumps_free.
    + exact IH.
Qed.

End Encoding.

(** ** Frames on the wire *)

Section Frames.

(** C8. Whatever the response holds (text with raw newlines in it
    included), the frame that encodes it is the JSON text followed by
    the delimiter: the text itself holds no delimiter byte, so the frame
    holds exactly one, and it is its last byte. *)
Theorem encode_frame_one_delimiter (response : pyval) (frame : bytes) :
  encode_frame response = Some frame ->
  count_newline frame = 1 /\
  exists payload,
    dumps response = Some payload /\
    frame = payload ++ [newline] /\
    has_newline payload = false.
Proof.
  unfold encode_frame. intros H.
  destruct (dumps response) as [payload|] eqn:Hdumps; [|discriminate].
  injection H as <-.
  pose proof (dumps_free response Hdumps) as Hfree.
  split.
  - rewrite count_newline_app, (count_newline_free _ Hfree). reflexivity.
  - exists payload. auto.
Qed.

Lemma encode_frame_one_delimiter_witness :
  encode_frame (failure Example.two_lines)
  = Some (lit "{" ++ [quote] ++ lit "ok" ++ [quote] ++ lit ": false, "
          ++ [quote] ++ lit "error" ++ [quote] ++ lit ": " ++ [quote]
          ++ lit "line 1\n\u00e9line 2" ++ [quote] ++ lit "}" ++ [newline]) /\
  count_newline
    (lit "{" ++ [quote] ++ lit "ok" ++ [quote] ++ lit ": false, "
     ++ [quote] ++ lit "error" ++ [quote] ++ lit ": " ++ [quote]
     ++ lit "line 1\n\u00e9line 2" ++ [quote] ++ lit "}" ++ [newline]) = 1.
Proof.
  split; [reflexivity|].
  refine (proj1 (@encode_frame_one_delimiter (failure Example.two_lines) _ _)).
  reflexivity.
Defined.

End Frames.

(** ** The command table *)

Section Table.

Lemma pystr_eqb_eq (a b : pystr) : pystr_eqb a b = true <-> a = b.
Proof.
  unfold pystr_eqb. destruct (list_eq_dec N.eq_dec a b); split; auto.
  discriminate.
Qed.

Lemma find_name_Some (table : list (pystr * handler)) name h :
  find_name table name = Some h -> In (name, h) table.
Proof.
  induction table as [|[k h'] table IH]; simpl; [discriminate|].
  destruct (pystr_eqb k name) eqn:Hk.
  - apply pystr_eqb_eq in Hk. intros H. injection H as <-. subst. auto.
  - auto.
Qed.

Lemma find_name_None (table : list (pystr * handler)) name :
  find_name table name = None <-> ~ In name (map fst table).
Proof.
  induction table as [|[k h'] table IH]; simpl; [tauto|].
  destruct (pystr_eqb k name) eqn:Hk.
  - apply pystr_eqb_eq in Hk. split; [discriminate|]. intros H. tauto.
  - rewrite IH. split; [|tauto].
    intros H [Heq|Hin]; [|tauto].
    apply pystr_eqb_eq in Heq. congruence.
Qed.

(** A name is registered exactly when it is one of [keys]. *)
Lemma registered_iff_key name :
  (exists h, find_name handlers name = Some h) <-> In name keys.
Proof.
  unfold keys. split.
  - intros [h H]. apply find_name_Some in H.
    apply (in_map fst) in H. exact H.
  - intros Hin. destruct (find_name handlers name) as [h|] eqn:H; eauto.
    apply find_name_None in H. contradiction.
Qed.

Variable host : Type.
Variable E : environment host.

(** C5. A request whose command is a name outside the table (names are
    compared code point by code point, so in a case-sensitive way; a
    request without a command has the empty name) is answered, without any
    command body being called, by a response with [ok] false whose
    [available] field is the list of the names of the table: every
    registered name is in it.  The connection thread gets this response
    whenever the callback has run in time. *)
Theorem unknown_command_lists_every_name
        (entries : list (pykey * pyval)) (name : pystr) (s : host) (n : nat) :
  dict_get entries (str "command") (PStr (str "")) = PStr name ->
  ~ In name keys ->
  let response := unknown_command name in
  _handle_command E (PDict entries) s = (Some response, s) /\
  (served E n = true -> dispatch E n (PDict entries) s = (response, s)) /\
  field response "ok" = Some (PBool false) /\
  field response "available" = Some (PList (map PStr keys)) /\
  (forall registered h,
      find_name handlers registered = Some h ->
      In (PStr registered) (map PStr keys)) /\
  List.length keys = 43 /\
  find_name handlers (str "ping") = Some cmd_ping /\
  find_name handlers (str "Ping") = None.
Proof.
  intros Hcmd Hout response.
  assert (Hrun : _handle_command E (PDict entries) s = (Some response, s)).
  { unfold _handle_command. rewrite Hcmd.
    unfold handlers_get. cbn [hashable_text].
    assert (Hnone : find_name handlers name = None)
      by (apply find_name_None; exact Hout).
    rewrite Hnone. reflexivity. }
  split; [exact Hrun|].
  split; [intros Hserved; unfold dispatch; rewrite Hserved, Hrun; reflexivity|].
  split; [reflexivity|].
  split; [reflexivity|].
  split; [|repeat split].
  intros registered h H. apply in_map.
  apply registered_iff_key. eauto.
Qed.



End Table.

(** ** The table and the wait, on examples *)

Section TableExamples.

Lemma unknown_command_lists_every_name_witness :
  dict_get (Example.fields "fly" (PDict [])) (str "command") (PStr (str ""))
  = PStr (str "fly") /\
  ~ In (str "fly") keys /\
  _handle_command Example.calm Example.fly 7
  = (Some (unknown_command (str "fly")), 7).
Proof.
  assert (Hout : ~ In (str "fly") keys)
    by (apply (proj1 (find_name_None handlers (str "fly"))); reflexivity).
  split; [reflexivity|]. split; [exact Hout|].
  exact (proj1 (@unknown_command_lists_every_name _ Example.calm
                  (Example.fields "fly" (PDict [])) (str "fly") 7 0
                  eq_refl Hout)).
Defined.




End TableExamples.

(** ** The receive loop serves the complete lines of the stream *)

Section Framing.

Lemma split_newline_None (buf : bytes) :
  has_newline buf = false -> split_newline buf = None.
Proof.
  induction buf as [|b buf IH]; simpl; [reflexivity|].
  intros H. apply orb_false_iff in H as [Hb Hbuf].
  rewrite Hb, (IH Hbuf). reflexivity.
Qed.

Lemma split_newline_Some (buf : bytes) :
  has_newline buf = true ->
  exists line rest, split_newline buf = Some (line, rest).
Proof.
  induction buf as [|b buf IH]; simpl; [discriminate|].
  destruct (is_newline b); simpl; eauto.
  intros H. destruct (IH H) as (line & rest & ->). eauto.
Qed.

(** The first line that [split] takes off is the first line of the cut
    stream, and what is left is shorter. *)
Lemma split_newline_cut (buf line rest : bytes) :
  split_newline buf = Some (line, rest) ->
  cut buf = (line :: complete_lines rest, remainder rest) /\
  List.length rest < List.length buf.
Proof.
  unfold complete_lines, remainder.
  revert line. induction buf as [|b buf IH]; simpl; [discriminate|].
  intros line. destruct (is_newline b).
  - intros H. injection H as <- <-. destruct (cut buf). auto.
  - destruct (split_newline buf) as [[line' rest']|]; [|discriminate].
    intros H. injection H as <- <-.
    destruct (IH line' eq_refl) as [-> Hlen]. simpl. split; [reflexivity|lia].
Qed.

Lemma cut_free (buf : bytes) : has_newline buf = false -> cut buf = ([], buf).
Proof.
  induction buf as [|b buf IH]; simpl; [reflexivity|].
  intros H. apply orb_false_iff in H as [Hb Hbuf].
  rewrite (IH Hbuf), Hb. reflexivity.
Qed.

(** What follows the last delimiter holds none. *)
Lemma remainder_free (buf : bytes) : has_newline (remainder buf) = false.
Proof.
  unfold remainder. induction buf as [|b buf IH]; simpl; [reflexivity|].
  destruct (cut buf) as [lines tail]. simpl in IH.
  destruct (is_newline b) eqn:Hb; [exact IH|].
  destruct lines; simpl; [rewrite Hb|]; exact IH.
Qed.

(** Cutting a stream that arrives in two parts. *)
Lemma cut_app (a b : bytes) :
  cut (a ++ b)
  = (complete_lines a ++ complete_lines (remainder a ++ b),
     remainder (remainder a ++ b)).
Proof.
  unfold complete_lines, remainder.
  induction a as [|x a IH]; simpl.
  - destruct (cut b); reflexivity.
  - rewrite IH. destruct (cut a) as [l1 t1]. simpl.
    destruct (is_newline x) eqn:Hx; [reflexivity|].
    destruct l1 as [|first others]; simpl.
    + rewrite Hx. destruct (cut (t1 ++ b)) as [l2 t2]. simpl.
      destruct l2; reflexivity.
    + reflexivity.
Qed.

Variable host : Type.
Variable E : environment host.

Lemma serve_lines_app (l1 l2 : list bytes) (c : conn host) :
  serve_lines E (l1 ++ l2) c
  = match serve_lines E l1 c with
    | Continue c' => serve_lines E l2 c'
    | Stop e c' => Stop e c'
    end.
Proof.
  revert c. induction l1 as [|line l1 IH]; intros c; simpl; [reflexivity|].
  destruct (serve_line E line c); auto.
Qed.

(** The inner loop, given more iterations than the buffer has bytes,
    serves the complete lines of the buffer in order and keeps the rest. *)
Lemma drain_serves_lines (fuel : nat) :
  forall (buffer : bytes) (c : conn host),
    List.length buffer < fuel ->
    drain E fuel buffer c
    = match serve_lines E (complete_lines buffer) c with
      | Continue c' => Drained (remainder buffer) c'
      | Stop e c' => Ended e c'
      end.
Proof.
  induction fuel as [|fuel IH]; intros buffer c Hfuel; [lia|].
  simpl. destruct (has_newline buffer) eqn:Hnl.
  - destruct (split_newline_Some _ Hnl) as (line & rest & Hsplit).
    rewrite Hsplit.
    destruct (split_newline_cut _ Hsplit) as [Hcut Hlen].
    unfold complete_lines, remainder. rewrite Hcut. simpl.
    destruct (serve_line E line c) as [c'|e c']; [|reflexivity].
    apply IH. lia.
  - unfold complete_lines, remainder. rewrite (cut_free _ Hnl). reflexivity.
Qed.

(** The loop never runs out of the iterations it is given. *)
Lemma drain_terminates (buffer : bytes) (c : conn host) :
  drain E (S (List.length buffer)) buffer c <> OutOfFuel.
Proof.
  rewrite drain_serves_lines by lia.
  destruct (serve_lines E (complete_lines buffer) c); discriminate.
Qed.

(** [_handle_client] returns, whatever is received. *)
Lemma recv_loop_returns (events : list recv_event) :
  forall (buffer : bytes) (c : conn host),
  exists r, recv_loop E events buffer c = Some r.
Proof.
  induction events as [|ev later IH]; intros buffer c; [simpl; eauto|].
  destruct ev as [[|x chunk]|]; [simpl; eauto| |simpl; eauto].
  cbn [recv_loop].
  pose proof (drain_terminates (buffer ++ x :: chunk) c) as Hfuel.
  destruct (drain E (S (List.length (buffer ++ x :: chunk)))
              (buffer ++ x :: chunk) c) as [rest c'|e c'|];
    [apply IH|eauto|contradiction].
Qed.

Lemma recv_loop_serves_lines (chunks : list bytes) :
  forall (buffer : bytes) (c : conn host),
    has_newline buffer = false ->
    Forall (fun chunk => chunk <> []) chunks ->
    recv_loop E (map Data chunks) buffer c
    = Some (closing
              (serve_lines E (complete_lines (buffer ++ List.concat chunks)) c)).
Proof.
  induction chunks as [|chunk later IH]; intros buffer c Hfree Hall.
  - simpl. rewrite app_nil_r. unfold complete_lines.
    rewrite (cut_free _ Hfree). reflexivity.
  - inversion Hall as [|? ? Hchunk Hlater]; subst.
    destruct chunk as [|x chunk]; [contradiction|].
    cbn [map recv_loop List.concat].
    rewrite drain_serves_lines by lia.
    rewrite app_assoc.
    set (buffer' := buffer ++ x :: chunk).
    unfold complete_lines at 2. rewrite cut_app. cbn [fst].
    rewrite serve_lines_app.
    destruct (serve_lines E (complete_lines buffer') c) as [c'|e c'];
      [|reflexivity].
    apply IH; [apply remainder_free | exact Hlater].
Qed.


End Framing.

(** ** One line, one response *)

Section Responses.

Variable host : Type.
Variable E : environment host.

Lemma failure_encodes (message : pystr) :
  exists payload, dumps (failure message) = Some payload.
Proof. eexists. reflexivity. Qed.

Lemma handler_failure_encodes (description trace : pystr) :
  exists payload, dumps (handler_failure description trace) = Some payload.
Proof. eexists. reflexivity. Qed.

Lemma encode_frame_of_dumps (response : pyval) (payload : bytes) :
  dumps response = Some payload ->
  encode_frame response = Some (payload ++ [newline]).
Proof. unfold encode_frame. intros ->. reflexivity. Qed.

(** A line that decodes, and that the parser takes or rejects as JSON,
    always has a response. *)
Lemma respond_total (n : nat) (line : bytes) (text : pystr) (s : host) :
  Utf8.decode line = Some text ->
  json_loads E text <> OtherError ->
  exists response s', respond E n line s = (Some response, s').
Proof.
  intros Htext Hloads. unfold respond. rewrite Htext.
  destruct (json_loads E text) as [data|message|]; [| |contradiction].
  - destruct (dispatch E n data s) as [r s']. eauto.
  - eauto.
Qed.

(** The side conditions on a failure response: its fields, and that it
    can be written. *)
Local Ltac failure_facts :=
  first [ reflexivity
        | eexists; reflexivity
        | apply failure_encodes
        | apply handler_failure_encodes ].

(** The step of the loop, once the response and its frame are known. *)
Lemma serve_line_written (line : bytes) (c : conn host)
      (response : pyval) (s' : host) (frame : bytes) :
  is_blank line = false ->
  respond E (List.length (sent c)) line (scene c) = (Some response, s') ->
  encode_frame response = Some frame ->
  serve_line E line c
  = if send_ok E (List.length (sent c))
    then Continue {| scene := s'; sent := sent c ++ [frame] |}
    else Stop TransportLost {| scene := s'; sent := sent c |}.
Proof.
  intros Hblank Hrespond Hframe. unfold serve_line.
  rewrite Hblank, Hrespond, Hframe. reflexivity.
Qed.

(** What the loop does give for every request it can answer.  A complete
    non-blank line that decodes as UTF-8, that [json.loads] parses or
    rejects with a decode error, and whose response [json.dumps] can
    write, is answered by exactly one frame, written before the next line
    is looked at; when the write fails (the peer is gone) nothing is
    written and the connection ends. *)
Theorem one_response_per_request
        (line : bytes) (later : list bytes) (c : conn host) (text : pystr) :
  let n := List.length (sent c) in
  is_blank line = false ->
  Utf8.decode line = Some text ->
  json_loads E text <> OtherError ->
  (forall response s',
      respond E n line (scene c) = (Some response, s') ->
      dumps response <> None) ->
  exists response s' frame,
    respond E n line (scene c) = (Some response, s') /\
    encode_frame response = Some frame /\
    count_newline frame = 1 /\
    (send_ok E n = true ->
     serve_line E line c
     = Continue {| scene := s'; sent := sent c ++ [frame] |} /\
     serve_lines E (line :: later) c
     = serve_lines E later {| scene := s'; sent := sent c ++ [frame] |}) /\
    (send_ok E n = false ->
     serve_line E line c
     = Stop TransportLost {| scene := s'; sent := sent c |}).
Proof.
  intros n Hblank Htext Hloads Hdumps.
  destruct (respond_total n line (scene c) Htext Hloads)
    as (response & s' & Hrespond).
  destruct (dumps response) as [payload|] eqn:Hpayload;
    [|exfalso; exact (Hdumps _ _ Hrespond Hpayload)].
  pose proof (encode_frame_of_dumps _ Hpayload) as Hframe.
  pose proof (serve_line_written line c Hblank Hrespond Hframe) as Hstep.
  exists response, s', (payload ++ [newline]).
  split; [exact Hrespond|]. split; [exact Hframe|].
  split.
  { rewrite count_newline_app,
      (count_newline_free _ (dumps_free response Hpayload)).
    reflexivity. }
  fold n in Hstep.
  split; intros Hsend; rewrite Hsend in Hstep.
  - split; [exact Hstep|]. simpl. rewrite Hstep. reflexivity.
  - exact Hstep.
Qed.

(** The faulty frames that are answered.  Three kinds of faulty frame
    get a failure and leave the connection open for the lines that
    follow: a line that is not JSON; a line that is JSON but not an
    object (its callback dies on the main thread and the wait runs out);
    a request whose command body raises an [Exception]. *)
Theorem faulty_frame_gets_failure
        (line : bytes) (later : list bytes) (c : conn host) (text : pystr) :
  let n := List.length (sent c) in
  is_blank line = false ->
  Utf8.decode line = Some text ->
  send_ok E n = true ->
  (exists message, json_loads E text = JSONDecodeError message) \/
  (exists data,
      json_loads E text = Loaded data /\
      forall entries, data <> PDict entries) \/
  (exists entries name h description trace s1,
      json_loads E text = Loaded (PDict entries) /\
      served E n = true /\
      dict_get entries (str "command") (PStr (str "")) = PStr name /\
      find_name handlers name = Some h /\
      call E h (dict_get entries (str "params") (PDict [])) (scene c)
      = (Raises description trace, s1)) ->
  exists response s' frame,
    field response "ok" = Some (PBool false) /\
    (exists message, field response "error" = Some (PStr message)) /\
    encode_frame response = Some frame /\
    serve_line E line c
    = Continue {| scene := s'; sent := sent c ++ [frame] |} /\
    serve_lines E (line :: later) c
    = serve_lines E later {| scene := s'; sent := sent c ++ [frame] |}.
Proof.
  intros n Hblank Htext Hsend Hcases.
  assert (Hgoal : forall response s',
             respond E n line (scene c) = (Some response, s') ->
             field response "ok" = Some (PBool false) ->
             (exists message, field response "error" = Some (PStr message)) ->
             (exists payload, dumps response = Some payload) ->
             exists response s' frame,
               field response "ok" = Some (PBool false) /\
               (exists message, field response "error" = Some (PStr message)) /\
               encode_frame response = Some frame /\
               serve_line E line c
               = Continue {| scene := s'; sent := sent c ++ [frame] |} /\
               serve_lines E (line :: later) c
               = serve_lines E later
                   {| scene := s'; sent := sent c ++ [frame] |}).
  { intros response s' Hrespond Hok Herror [payload Hpayload].
    pose proof (encode_frame_of_dumps _ Hpayload) as Hframe.
    pose proof (serve_line_written line c Hblank Hrespond Hframe) as Hstep.
    fold n in Hstep. rewrite Hsend in Hstep.
    exists response, s', (payload ++ [newline]).
    repeat (split; [assumption|]).
    simpl. rewrite Hstep. reflexivity. }
  unfold respond in Hgoal. rewrite Htext in Hgoal.
  destruct Hcases as [[message Hloads] | [(data & Hloads & Hshape) | Hraise]].
  - rewrite Hloads in Hgoal.
    apply (Hgoal (invalid_json message) (scene c)); failure_facts.
  - rewrite Hloads in Hgoal.
    assert (Hwait : dispatch E n data (scene c) = (timeout_response, scene c)).
    { unfold dispatch. destruct (served E n); [|reflexivity].
      destruct data; try reflexivity.
      exfalso. eapply Hshape. reflexivity. }
    rewrite Hwait in Hgoal.
    apply (Hgoal timeout_response (scene c)); failure_facts.
  - destruct Hraise
      as (entries & name & h & description & trace & s1
          & Hloads & Hserved & Hcmd & Hfound & Hcall).
    rewrite Hloads in Hgoal.
    assert (Hrun : dispatch E n (PDict entries) (scene c)
                   = (handler_failure description trace, s1)).
    { unfold dispatch, _handle_command. rewrite Hserved, Hcmd.
      unfold handlers_get. cbn [hashable_text]. rewrite Hfound, Hcall.
      reflexivity. }
    rewrite Hrun in Hgoal.
    apply (Hgoal (handler_failure description trace) s1); failure_facts.
Qed.

(** C6, where the code falls short. A line that is not UTF-8 (the single
    byte [0xff], say) raises [UnicodeDecodeError], which the handler for
    [json.JSONDecodeError] does not catch: whatever the environment, no
    response is written, the thread ends, and the lines that follow are
    never served. *)
Theorem undecodable_line_ends_connection (rest : bytes) (s : host) :
  _handle_client E [Data (xff :: newline :: rest)] s
  = Some (Crashed, {| scene := s; sent := [] |}).
Proof.
  unfold _handle_client.
  change [Data (xff :: newline :: rest)]
    with (map Data [xff :: newline :: rest]).
  rewrite recv_loop_serves_lines;
    [|reflexivity|constructor; [discriminate|constructor]].
  simpl. rewrite app_nil_r.
  unfold complete_lines. simpl. destruct (cut rest) as [lines tail].
  reflexivity.
Qed.

End Responses.

(** ** Connections, on examples *)

Section ConnectionExamples.


Lemma one_response_per_request_witness :
  let line := Example.payload Example.ping in
  let c := {| scene := 0; sent := [] |} in
  is_blank line = false /\
  Utf8.decode line = Some (text_of_bytes line) /\
  json_loads Example.calm (text_of_bytes line) <> OtherError /\
  exists response s' frame,
    respond Example.calm 0 line 0 = (Some response, s') /\
    encode_frame response = Some frame /\
    count_newline frame = 1 /\
    (send_ok Example.calm 0 = true ->
     serve_line Example.calm line c
     = Continue {| scene := s'; sent := [] ++ [frame] |} /\
     serve_lines Example.calm [line; line] c
     = serve_lines Example.calm [line]
         {| scene := s'; sent := [] ++ [frame] |}) /\
    (send_ok Example.calm 0 = false ->
     serve_line Example.calm line c
     = Stop TransportLost {| scene := s'; sent := [] |}).
Proof.
  intros line c.
  assert (Hloads : json_loads Example.calm (text_of_bytes line) <> OtherError)
    by (vm_compute; discriminate).
  split; [reflexivity|]. split; [reflexivity|]. split; [exact Hloads|].
  refine (@one_response_per_request _ Example.calm line [line] c
            (text_of_bytes line) eq_refl eq_refl Hloads _).
  intros response s' H. vm_compute in H. injection H as <- <-.
  vm_compute. discriminate.
Defined.

Lemma faulty_frame_gets_failure_witness :
  let line := lit "oops" in
  let c := {| scene := 0; sent := [] |} in
  is_blank line = false /\
  Utf8.decode line = Some (str "oops") /\
  send_ok Example.calm 0 = true /\
  json_loads Example.calm (str "oops")
  = JSONDecodeError (str "Expecting value: line 1 column 1 (char 0)") /\
  exists response s' frame,
    field response "ok" = Some (PBool false) /\
    (exists message, field response "error" = Some (PStr message)) /\
    encode_frame response = Some frame /\
    serve_line Example.calm line c
    = Continue {| scene := s'; sent := [] ++ [frame] |} /\
    serve_lines Example.calm [line; Example.payload Example.ping] c
    = serve_lines Example.calm [Example.payload Example.ping]
        {| scene := s'; sent := [] ++ [frame] |}.
Proof.
  intros line c.
  split; [reflexivity|]. split; [reflexivity|]. split; [reflexivity|].
  split; [reflexivity|].
  refine (@faulty_frame_gets_failure _ Example.calm line
            [Example.payload Example.ping] c (str "oops")
            eq_refl eq_refl eq_refl _).
  left. eexists. reflexivity.
Defined.

(** When the peer is gone at the second write, the second request has
    run but has no response, and the third is not served. *)
Lemma transport_loss_writes_nothing :
  exists frame,
    encode_frame (fst (dispatch Example.gone 0 Example.ping 0)) = Some frame /\
    _handle_client Example.gone
      [Data (Example.line_of Example.ping ++ Example.line_of Example.ping
             ++ Example.line_of Example.ping)] 0
    = Some (TransportLost, {| scene := 2; sent := [frame] |}).
Proof. eexists. split; vm_compute; reflexivity. Qed.

(** C2, where the code falls short. A well-formed request for a
    registered command, decoded and run while the peer is still there,
    gets no response when the value its body returns cannot be written as
    JSON ([cmd_run_script] turns a result outside the JSON types into
    text, but lets a list through without looking inside it): the
    [TypeError] of [json.dumps] is raised outside the [try] block and ends
    the thread. *)
Lemma accepted_request_without_response :
  let line := Example.payload Example.script in
  is_blank line = false /\
  respond Example.calm 0 line 0
  = (Some (success (Example.one "script_result"
                      (PList [PObject (str "{1, 2}")]))), 1) /\
  send_ok Example.calm 0 = true /\
  serve_line Example.calm line {| scene := 0; sent := [] |}
  = Stop Crashed {| scene := 1; sent := [] |}.
Proof. vm_compute. repeat split. Qed.

(** C4, where the code falls short. When the result of a command cannot
    be written as JSON, the [TypeError] of [json.dumps], raised outside
    the [try] block, is not turned into a failure for that frame: nothing
    is sent, the connection is closed, and the request that follows on
    the same connection is not served (one body has run, no frame was
    written).  The other faulty frames are answered with a failure. *)
Lemma unserializable_result_closes_connection :
  _handle_client Example.calm
    [Data (Example.line_of Example.script ++ Example.line_of Example.ping)] 0
  = Some (Crashed, {| scene := 1; sent := [] |}).
Proof. vm_compute. reflexivity. Qed.

End ConnectionExamples.

(** ** Starting and stopping the server *)

Module LifecycleFacts.
Import Lifecycle.

(** C9. The stop operator raises nothing: it always returns a report.  On
    a stopped server it reports a warning, returns [CANCELLED] and leaves
    the flag, the thread handle and the threads as they were; so a second
    stop right after a first one does just that, on the state the first
    one left. *)
Theorem stop_is_idempotent (s : server) :
  let after := snd (MCP_OT_StopServer_execute s) in
  _running after = false /\
  MCP_OT_StopServer_execute after = (not_running, after) /\
  forall (thread : option nat) (threads : list (nat * phase)) (made : nat),
    let stopped := {| _running := false; _server_thread := thread;
                      loops := threads; created := made |} in
    MCP_OT_StopServer_execute stopped = (not_running, stopped).
Proof.
  unfold MCP_OT_StopServer_execute.
  destruct s as [[] thread threads made]; simpl; auto.
Qed.

Lemma without_length (t : nat) (l : list (nat * phase)) :
  List.length (without t l) <= List.length l.
Proof. unfold without. apply filter_length_le. Qed.

Lemma single_loop_step (ev : event) (s : server) :
  start_or_thread ev = true -> single_loop s -> single_loop (apply ev s).
Proof.
  unfold single_loop, accept_loops.
  pose proof (fun t => without_length t (loops s)) as Hless.
  destruct ev as [| | | |t ok|t a]; simpl; try discriminate; intros _.
  - unfold MCP_OT_StartServer_execute.
    destruct (_running s) eqn:Hrun; simpl; [rewrite Hrun; auto|].
    rewrite length_app. simpl. lia.
  - unfold bound. destruct (phase_of s t) as [[]|]; auto.
    destruct ok; simpl.
    + rewrite length_map. auto.
    + specialize (Hless t). lia.
  - unfold poll. destruct (phase_of s t) as [[]|]; auto.
    specialize (Hless t).
    destruct (_running s) eqn:Hrun; simpl.
    + destruct a; simpl; rewrite ?Hrun; lia.
    + lia.
Qed.

Lemma single_loop_run (evs : list event) :
  forall s,
    forallb start_or_thread evs = true ->
    single_loop s -> single_loop (run evs s).
Proof.
  induction evs as [|ev evs IH]; intros s Hevs Hs; [exact Hs|].
  simpl in Hevs. apply andb_true_iff in Hevs as [Hev Hevs].
  simpl. apply IH; [exact Hevs|]. apply single_loop_step; assumption.
Qed.

Lemma single_loop_bound (s : server) : single_loop s -> accept_loops s <= 1.
Proof. unfold single_loop. destruct (_running s); lia. Qed.

(** C10, as the code has it. The start operator on a running server
    returns [CANCELLED] with a warning and changes nothing: no thread is
    made, the flag and the thread handle stay.  So from the module as
    loaded, and from the module as [register()] leaves it, however starts
    are mixed with the steps of the server threads, there is never more
    than one thread in [_server_loop], as long as the server is not
    stopped in between. *)
Theorem start_while_running_changes_nothing (s : server) (evs : list event) :
  (_running s = true ->
   MCP_OT_StartServer_execute s = (already_running, s)) /\
  (forallb start_or_thread evs = true ->
   accept_loops (run evs initial) <= 1 /\
   accept_loops (run evs (register initial)) <= 1).
Proof.
  split.
  - intros Hrun. unfold MCP_OT_StartServer_execute. rewrite Hrun. reflexivity.
  - intros Hevs.
    split; apply single_loop_bound, single_loop_run; try exact Hevs;
      unfold single_loop, accept_loops; simpl; lia.
Qed.

Lemma start_while_running_changes_nothing_witness :
  _running (run [Start] initial) = true /\
  forallb start_or_thread starts = true /\
  MCP_OT_StartServer_execute (run [Start] initial)
  = (already_running, run [Start] initial) /\
  accept_loops (run starts initial) <= 1 /\
  accept_loops (run starts (register initial)) <= 1.
Proof.
  split; [reflexivity|]. split; [reflexivity|].
  split.
  - exact (proj1 (start_while_running_changes_nothing (run [Start] initial)
                    starts) eq_refl).
  - exact (proj2 (start_while_running_changes_nothing (run [Start] initial)
                    starts) eq_refl).
Defined.

(** C10, as stated, fails: a start that comes after a stop, before the
    thread of the first start has looked at the flag again, makes a
    second thread; the flag is up again when the first thread looks, so
    both stay in the accept loop. *)
Lemma stop_then_start_runs_two_loops :
  let s := run [Start; Bound 0 true; Halt; Start; Bound 1 true;
                Poll 0 TimedOut; Poll 1 TimedOut] initial in
  loops s = [(0, Accepting); (1, Accepting)] /\
  accept_loops s = 2.
Proof. vm_compute. split; reflexivity. Qed.

End LifecycleFacts.

(* ================================================================= *)
(** * More of the code *)

(** ** What [json.dumps] writes is printable ASCII *)

Section Printable.

Lemma printable_app (a b : bytes) :
  forallb printable (a ++ b) = forallb printable a && forallb printable b.
Proof. apply forallb_app. Qed.

Lemma printable_not_delimiter (c : byte) :
  printable c = true -> is_newline c = false.
Proof. destruct c; simpl; intros H; try reflexivity; discriminate H. Qed.

Lemma printable_free (b : bytes) :
  forallb printable b = true -> has_newline b = false.
Proof.
  induction b as [|c b IH]; simpl; [reflexivity|].
  intros H. apply andb_true_iff in H as [Hc Hb].
  rewrite (printable_not_delimiter _ Hc), (IH Hb). reflexivity.
Qed.

Lemma hex_digit_printable (n : N) : printable (hex_digit n) = true.
Proof.
  unfold hex_digit.
  destruct (nth_in_or_default (N.to_nat n) hex_digits x30) as [Hin | ->];
    [|reflexivity].
  revert Hin. generalize (nth (N.to_nat n) hex_digits x30). intros b Hin.
  simpl in Hin.
  repeat (destruct Hin as [<- | Hin]; [reflexivity|]).
  destruct Hin.
Qed.

Lemma u_escape_printable (n : N) : forallb printable (u_escape n) = true.
Proof.
  unfold u_escape. rewrite printable_app. simpl.
  rewrite !hex_digit_printable. reflexivity.
Qed.

Lemma copied_printable (c : N) (b : byte) :
  Byte.of_N c = Some b -> (0x20 <= c)%N -> (c <= 0x7e)%N -> printable b = true.
Proof.
  intros Hb Hlo Hhi. apply Byte.to_of_N in Hb. unfold printable.
  rewrite Hb. apply andb_true_iff. split; apply N.leb_le; assumption.
Qed.

Lemma escape_char_printable (c : N) : forallb printable (escape_char c) = true.
Proof.
  unfold escape_char.
  repeat match goal with
         | |- context [if ?t then _ else _] => destruct t eqn:?
         end; try reflexivity; try apply u_escape_printable.
  - destruct (Byte.of_N c) as [b|] eqn:Hb; [|reflexivity].
    simpl. rewrite andb_true_r.
    apply andb_true_iff in Heqb1 as [Hlo Hhi].
    apply N.leb_le in Hlo, Hhi.
    eapply copied_printable; eauto.
  - rewrite printable_app, !u_escape_printable. reflexivity.
Qed.

Lemma escape_chars_printable (s : pystr) :
  forallb printable (escape_chars s) = true.
Proof.
  unfold escape_chars. induction s as [|c s IH]; simpl; [reflexivity|].
  rewrite printable_app, escape_char_printable, IH. reflexivity.
Qed.

Lemma digits_printable (u : Decimal.uint) : forallb printable (digits u) = true.
Proof. induction u; simpl; auto. Qed.

Lemma signed_digits_printable (i : Decimal.int) :
  forallb printable (signed_digits i) = true.
Proof. destruct i; simpl; apply digits_printable. Qed.

Lemma float_repr_printable (f : pyfloat) :
  forallb printable (float_repr f) = true.
Proof.
  assert (Hfr : forall u, forallb printable (fraction u) = true).
  { intros u. destruct u; try reflexivity;
      unfold fraction; rewrite printable_app, digits_printable; reflexivity. }
  assert (Hex : forall e, forallb printable (exponent e) = true).
  { intros e. destruct e; unfold exponent;
      rewrite printable_app, digits_printable; reflexivity. }
  destruct f as [|[]|[i fr|i fr e]]; try reflexivity; unfold float_repr;
    rewrite ?printable_app, ?signed_digits_printable, ?Hfr, ?Hex; reflexivity.
Qed.

Lemma key_text_printable (k : pykey) (b : bytes) :
  key_text k = Some b -> forallb printable b = true.
Proof.
  destruct k as [s|z|f|[]| |]; simpl; intros H; inversion H; subst;
    auto using escape_chars_printable, float_repr_printable.
  apply signed_digits_printable.
Qed.

Lemma join_printable (parts : list bytes) :
  Forall (fun p => forallb printable p = true) parts ->
  forallb printable (join parts) = true.
Proof.
  induction 1 as [|p parts Hp Hparts IH]; [reflexivity|].
  destruct parts as [|q parts]; [exact Hp|].
  change (join (p :: q :: parts)) with (p ++ lit ", " ++ join (q :: parts)).
  rewrite !printable_app, Hp, IH. reflexivity.
Qed.

Lemma item_printable (k v : option bytes) (b : bytes) :
  (forall kb, k = Some kb -> forallb printable kb = true) ->
  (forall vb, v = Some vb -> forallb printable vb = true) ->
  item k v = Some b -> forallb printable b = true.
Proof.
  intros Hk Hv. destruct k as [kb|], v as [vb|]; unfold item;
    try discriminate.
  intros H. injection H as <-.
  cbn. rewrite printable_app, (Hk kb eq_refl). cbn.
  exact (Hv vb eq_refl).
Qed.

Lemma dumps_printable :
  forall (v : pyval) (b : bytes),
    dumps v = Some b -> forallb printable b = true.
Proof.
  fix IHv 1.
  intros v. destruct v as [|[]|z|f|s|items|entries|shown]; cbn [dumps];
    intros b H.
  1-6: injection H as <-; auto using float_repr_printable.
  - apply signed_digits_printable.
  - unfold encode_basestring_ascii.
    rewrite !printable_app, escape_chars_printable. reflexivity.
  - destruct (all_some (map dumps items)) as [parts|] eqn:Hparts;
      [|discriminate].
    injection H as <-.
    cbn. rewrite printable_app. cbn. rewrite andb_true_r.
    apply join_printable.
    apply (all_some_Forall (fun p => forallb printable p = true)) in Hparts;
      [exact Hparts|].
    clear Hparts. induction items as [|x items IH]; constructor.
    + apply IHv.
    + exact IH.
  - match type of H with
    | match all_some ?l with _ => _ end = _ =>
        destruct (all_some l) as [parts|] eqn:Hparts; [|discriminate]
    end.
    injection H as <-.
    cbn. rewrite printable_app. cbn. rewrite andb_true_r.
    apply join_printable.
    apply (all_some_Forall (fun p => forallb printable p = true)) in Hparts;
      [exact Hparts|].
    clear Hparts. induction entries as [|[k x] entries IH]; constructor.
    + intros b. apply item_printable.
      * apply key_text_printable.
      * apply IHv.
    + exact IH.
  - discriminate.
Qed.

(** X1. The text [json.dumps] writes for any value holds only printable
    ASCII characters, from the space to the tilde: every other character
    of a string is written as an escape. *)
Theorem dumps_writes_printable_ascii (v : pyval) (b : bytes) :
  dumps v = Some b -> forallb printable b = true.
Proof. apply dumps_printable. Qed.

Lemma dumps_writes_printable_ascii_witness :
  dumps (failure Example.two_lines)
  = Some (Example.payload (failure Example.two_lines)) /\
  forallb printable (Example.payload (failure Example.two_lines)) = true.
Proof.
  split; [reflexivity|].
  exact (dumps_writes_printable_ascii (failure Example.two_lines) eq_refl).
Defined.

End Printable.

(** ** Requests on the wire *)

Section RequestLines.

Lemma decode_cons_ascii (c : byte) (rest : bytes) :
  (Byte.to_N c <? 0x80)%N = true ->
  Utf8.decode (c :: rest) = option_map (cons (Byte.to_N c)) (Utf8.decode rest).
Proof. intros H. cbn [Utf8.decode]. rewrite H. reflexivity. Qed.

(** Printable text decodes to itself. *)
Lemma decode_printable (b : bytes) :
  forallb printable b = true -> Utf8.decode b = Some (text_of_bytes b).
Proof.
  induction b as [|c b IH]; [reflexivity|].
  cbn [forallb]. intros H. apply andb_true_iff in H as [Hc Hb].
  rewrite decode_cons_ascii.
  - rewrite (IH Hb). reflexivity.
  - unfold printable in Hc. apply andb_true_iff in Hc as [_ Hhi].
    apply N.leb_le in Hhi. apply N.ltb_lt. lia.
Qed.

Lemma lstrip_stops (c : byte) (rest : bytes) :
  is_space c = false -> lstrip (c :: rest) = c :: rest.
Proof. intros H. simpl. rewrite H. reflexivity. Qed.

(** A line is blank exactly when each of its bytes is white space. *)
Lemma is_blank_all_space (line : bytes) :
  is_blank line = forallb is_space line.
Proof.
  assert (Hl : forall l, lstrip l = [] <-> forallb is_space l = true).
  { induction l as [|c l IH]; simpl; [tauto|].
    destruct (is_space c); simpl; [exact IH|]. split; discriminate. }
  assert (Hin : forall l c, In c (lstrip l) -> In c l).
  { induction l as [|x l IH]; simpl; [tauto|].
    intros c. destruct (is_space x); simpl; auto. }
  assert (Hhead : forall l, match lstrip l with
                            | [] => True
                            | c :: _ => is_space c = false
                            end).
  { induction l as [|c l IH]; simpl; [exact I|].
    destruct (is_space c) eqn:Hc; [exact IH|exact Hc]. }
  unfold is_blank, strip.
  destruct (forallb is_space line) eqn:Hall.
  - apply Hl in Hall. rewrite Hall. reflexivity.
  - destruct (lstrip line) as [|c rest] eqn:Hstrip.
    + apply Hl in Hstrip. congruence.
    + pose proof (Hhead line) as Hc. rewrite Hstrip in Hc.
      destruct (lstrip (rev (c :: rest))) as [|d back] eqn:Hback.
      * apply Hl in Hback. rewrite forallb_forall in Hback.
        rewrite (Hback c) in Hc; [discriminate|].
        apply in_rev. rewrite rev_involutive. left. reflexivity.
      * destruct (rev (d :: back)) eqn:Hrev; [|reflexivity].
        apply (f_equal (@rev byte)) in Hrev. rewrite rev_involutive in Hrev.
        discriminate.
Qed.

(** One line closed by its delimiter is cut into that line. *)
Lemma cut_one_line (line : bytes) :
  has_newline line = false -> cut (line ++ [newline]) = ([line], []).
Proof.
  induction line as [|c line IH]; [reflexivity|].
  simpl. intros H. apply orb_false_iff in H as [Hc Hline].
  rewrite (IH Hline), Hc. reflexivity.
Qed.

(** X2. The line [_send_command] writes for a request is one complete
    frame of printable text that begins with a brace: the receive loop
    of the addon cuts exactly that text out of it, does not skip it as
    blank, and decodes it to the very characters [json.dumps] wrote,
    whatever the command name and the parameters hold. *)
Theorem request_line_is_one_frame
        (command : pystr) (params : option pyval) (line : bytes) :
  Client.request_line command params = Some line ->
  exists payload,
    dumps (Client.request command params) = Some payload /\
    line = payload ++ [newline] /\
    cut line = ([payload], []) /\
    is_blank payload = false /\
    Utf8.decode payload = Some (text_of_bytes payload).
Proof.
  unfold Client.request_line, encode_frame. intros H.
  destruct (dumps (Client.request command params)) as [payload|] eqn:Hdumps;
    [|discriminate].
  injection H as <-.
  pose proof (dumps_printable _ Hdumps) as Hprint.
  exists payload.
  split; [reflexivity|]. split; [reflexivity|].
  split; [apply cut_one_line, printable_free, Hprint|].
  split; [|apply decode_printable, Hprint].
  rewrite is_blank_all_space.
  unfold Client.request in Hdumps. cbn [dumps map] in Hdumps.
  destruct (all_some _) as [parts|]; [|discriminate].
  injection Hdumps as <-. reflexivity.
Qed.

Lemma request_line_is_one_frame_witness :
  Client.request_line (str "create_text")
    (Some (Example.one "text" (PStr Example.two_lines)))
  = Some (Example.line_of
            (Client.request (str "create_text")
               (Some (Example.one "text" (PStr Example.two_lines))))) /\
  exists payload,
    dumps (Client.request (str "create_text")
             (Some (Example.one "text" (PStr Example.two_lines))))
    = Some payload /\
    Example.line_of
      (Client.request (str "create_text")
         (Some (Example.one "text" (PStr Example.two_lines))))
    = payload ++ [newline] /\
    cut (Example.line_of
           (Client.request (str "create_text")
              (Some (Example.one "text" (PStr Example.two_lines)))))
    = ([payload], []) /\
    is_blank payload = false /\
    Utf8.decode payload = Some (text_of_bytes payload).
Proof.
  split; [reflexivity|].
  exact (@request_line_is_one_frame (str "create_text")
           (Some (Example.one "text" (PStr Example.two_lines))) _ eq_refl).
Defined.

Lemma cut_stream_of (lines : list bytes) :
  Forall (fun line => has_newline line = false) lines ->
  cut (stream_of lines) = (lines, []).
Proof.
  unfold stream_of.
  induction 1 as [|line lines Hline _ IH]; [reflexivity|].
  cbn [map List.concat]. rewrite cut_app.
  unfold complete_lines, remainder.
  rewrite (cut_one_line _ Hline). cbn [fst snd app]. rewrite IH. reflexivity.
Qed.

(** X3. Requests sent one behind the other on a connection, each written
    by [json.dumps] and closed by a newline, are cut by the addon at the
    request boundaries and nowhere else: the complete lines of the stream
    are the texts written, in order, and nothing is left over. *)
Theorem pipelined_requests_are_cut_apart
        (values : list pyval) (payloads : list bytes) :
  Forall2 (fun v payload => dumps v = Some payload) values payloads ->
  complete_lines (stream_of payloads) = payloads /\
  remainder (stream_of payloads) = [].
Proof.
  intros H.
  assert (Hfree : Forall (fun line => has_newline line = false) payloads).
  { induction H as [|v payload values payloads Hv _ IH]; constructor; auto.
    apply printable_free. eapply dumps_printable. exact Hv. }
  unfold complete_lines, remainder. rewrite (cut_stream_of Hfree). auto.
Qed.

Lemma pipelined_requests_are_cut_apart_witness :
  Forall2 (fun v payload => dumps v = Some payload)
    [Example.ping; PStr Example.two_lines]
    [Example.payload Example.ping; Example.payload (PStr Example.two_lines)] /\
  complete_lines
    (stream_of [Example.payload Example.ping;
                Example.payload (PStr Example.two_lines)])
  = [Example.payload Example.ping; Example.payload (PStr Example.two_lines)].
Proof.
  assert (H : Forall2 (fun v payload => dumps v = Some payload)
                [Example.ping; PStr Example.two_lines]
                [Example.payload Example.ping;
                 Example.payload (PStr Example.two_lines)])
    by (repeat constructor).
  split; [exact H|].
  exact (proj1 (pipelined_requests_are_cut_apart H)).
Defined.

End RequestLines.

(** ** What the receive loop keeps true *)

Section ServerLoop.

Variable host : Type.
Variable E : environment host.





(** X4. The thread of a connection always comes to an end, whatever is
    received and in whatever pieces: each pass of the inner loop takes a
    line off the buffer, so it cannot go on for ever. *)
Theorem handle_client_returns (events : list recv_event) (s : host) :
  exists e c, _handle_client E events s = Some (e, c).
Proof.
  unfold _handle_client.
  destruct (recv_loop_returns E events [] {| scene := s; sent := [] |})
    as [[e c] H].
  eauto.
Qed.




(** X7. A request that is not closed by a newline is never run: bytes
    received after the last delimiter change nothing of what the
    connection does before the peer closes. *)
Theorem unterminated_tail_is_ignored (stream tail : bytes) (s : host) :
  has_newline tail = false ->
  _handle_client E [Data (stream ++ tail)] s
  = _handle_client E [Data stream] s.
Proof.
  intros Htail.
  assert (Hrun : forall whole, whole <> [] ->
                 _handle_client E [Data whole] s
                 = Some (closing (serve_lines E (complete_lines whole)
                                    {| scene := s; sent := [] |}))).
  { intros whole Hwhole. unfold _handle_client.
    change [Data whole] with (map Data [whole]).
    rewrite recv_loop_serves_lines;
      [|reflexivity|constructor; [exact Hwhole|constructor]].
    simpl. rewrite app_nil_r. reflexivity. }
  assert (Hlines : complete_lines (stream ++ tail) = complete_lines stream).
  { unfold complete_lines at 1. rewrite cut_app. cbn [fst].
    unfold complete_lines at 2.
    rewrite cut_free; [apply app_nil_r|].
    rewrite has_newline_app, remainder_free, Htail. reflexivity. }
  destruct stream as [|x stream].
  - destruct tail as [|y tail]; [reflexivity|].
    cbn [app]. rewrite Hrun by discriminate.
    unfold complete_lines. rewrite (cut_free _ Htail). reflexivity.
  - rewrite !Hrun by discriminate. rewrite Hlines. reflexivity.
Qed.

Lemma serve_blank_line (line : bytes) (c : conn host) :
  is_blank line = true -> serve_line E line c = Continue c.
Proof. unfold serve_line. intros ->. reflexivity. Qed.

(** X8. A line made of white space only (spaces, tabs, carriage
    returns, vertical tabs, form feeds, or nothing at all) is passed over:
    no response, no effect.  So serving a sequence of lines is serving
    its requests; blank lines between them make no difference. *)
Theorem blank_lines_are_passed_over
        (line : bytes) (lines : list bytes) (c : conn host) :
  (forallb is_space line = true -> serve_line E line c = Continue c) /\
  serve_lines E lines c = serve_lines E (requests lines) c.
Proof.
  split.
  - intros H. apply serve_blank_line. rewrite is_blank_all_space. exact H.
  - revert c. induction lines as [|l lines IH]; intros c; [reflexivity|].
    unfold requests. cbn [filter serve_lines].
    destruct (is_blank l) eqn:Hl; cbn [negb].
    + rewrite (serve_blank_line _ c Hl). apply IH.
    + cbn [serve_lines]. destruct (serve_line E l c); [apply IH|reflexivity].
Qed.

(** What one line does to Blender, in the model: nothing, or what the
    body of the registered command it names does. *)
Lemma serve_line_scene (line : bytes) (c : conn host) :
  scene (reached (serve_line E line c)) = scene c \/
  exists text entries name h,
    Utf8.decode line = Some text /\
    json_loads E text = Loaded (PDict entries) /\
    served E (List.length (sent c)) = true /\
    dict_get entries (str "command") (PStr (str "")) = PStr name /\
    find_name handlers name = Some h /\
    scene (reached (serve_line E line c))
    = snd (call E h (dict_get entries (str "params") (PDict [])) (scene c)).
Proof.
  unfold serve_line. destruct (is_blank line); [left; reflexivity|].
  set (n := List.length (sent c)).
  assert (Hscene : forall r s',
             respond E n line (scene c) = (r, s') ->
             scene (reached
                      match r with
                      | Some response =>
                          match encode_frame response with
                          | Some frame =>
                              if send_ok E n
                              then Continue {| scene := s';
                                               sent := sent c ++ [frame] |}
                              else Stop TransportLost
                                     {| scene := s'; sent := sent c |}
                          | None => Stop Crashed
                                      {| scene := s'; sent := sent c |}
                          end
                      | None => Stop Crashed {| scene := s'; sent := sent c |}
                      end) = s').
  { intros [response|] s' _; [|reflexivity].
    destruct (encode_frame response); [|reflexivity].
    destruct (send_ok E n); reflexivity. }
  destruct (respond E n line (scene c)) as [r s'] eqn:Hrespond.
  rewrite (Hscene r s' eq_refl). clear Hscene.
  unfold respond in Hrespond.
  destruct (Utf8.decode line) as [text|] eqn:Htext;
    [|left; injection Hrespond as _ <-; reflexivity].
  destruct (json_loads E text) as [data|message|] eqn:Hloads;
    try (left; injection Hrespond as _ <-; reflexivity).
  unfold dispatch in Hrespond.
  destruct (served E n) eqn:Hserved;
    [|left; injection Hrespond as _ <-; reflexivity].
  unfold _handle_command in Hrespond.
  destruct data as [| | | | |items|entries|shown];
    try (left; injection Hrespond as _ <-; reflexivity).
  unfold handlers_get in Hrespond.
  destruct (dict_get entries (str "command") (PStr (str ""))) as
      [|b|z|f|name|items|inner|shown] eqn:Hcmd; cbn [hashable_text] in Hrespond;
    try (left; injection Hrespond as _ <-; reflexivity);
    try (destruct b; left; injection Hrespond as _ <-; reflexivity).
  destruct (find_name handlers name) as [h|] eqn:Hfound;
    [|left; injection Hrespond as _ <-; reflexivity].
  right. exists text, entries, name, h.
  repeat (split; [assumption || reflexivity|]).
  destruct (call E h (dict_get entries (str "params") (PDict [])) (scene c))
    as [[value|description trace|] s1];
    injection Hrespond as _ <-; reflexivity.
Qed.

(** X9. Blender is touched through a registered command only.  A line
    for which no callback is registered (a blank line, a line that does
    not decode, a line that [json.loads] does not parse) leaves Blender
    as it was.  A line whose callback has run within the wait either
    leaves it as it was (JSON that is no object, an unknown command) or
    is a JSON object that names a registered command, and Blender is as
    the body of that command, called on the [params] of the object, left
    it. *)
Theorem only_registered_bodies_touch_blender (line : bytes) (c : conn host) :
  (is_blank line = true \/
   Utf8.decode line = None \/
   (exists text,
       Utf8.decode line = Some text /\
       forall data, json_loads E text <> Loaded data) ->
   scene (reached (serve_line E line c)) = scene c) /\
  (served E (List.length (sent c)) = true ->
   scene (reached (serve_line E line c)) = scene c \/
   exists text entries name h,
     Utf8.decode line = Some text /\
     json_loads E text = Loaded (PDict entries) /\
     dict_get entries (str "command") (PStr (str "")) = PStr name /\
     find_name handlers name = Some h /\
     scene (reached (serve_line E line c))
     = snd (call E h (dict_get entries (str "params") (PDict [])) (scene c))).
Proof.
  pose proof (serve_line_scene line c) as Hscene.
  split.
  - intros [Hblank | Hbad].
    + rewrite (serve_blank_line _ c Hblank). reflexivity.
    + destruct Hscene as [Hsame | (text & entries & name & h & Ht & Hl & _)];
        [exact Hsame|].
      exfalso. destruct Hbad as [Hnone | (text' & Ht' & Hnot)].
      * congruence.
      * rewrite Ht in Ht'. injection Ht' as <-. exact (Hnot _ Hl).
  - intros _.
    destruct Hscene
      as [Hsame | (text & entries & name & h & Ht & Hl & _ & Hc & Hf & Hs)];
      [left; exact Hsame|].
    right. exists text, entries, name, h. auto.
Qed.


End ServerLoop.

(** ** The client end *)

Section ClientEnd.

Import Client.

Lemma receive_done (events : list recv_event) (buffer : bytes) :
  has_newline buffer = true -> receive events buffer = Some buffer.
Proof. intros H. destruct events; simpl; rewrite H; reflexivity. Qed.

Lemma first_line_of_frame (payload rest : bytes) :
  has_newline payload = false ->
  first_line (payload ++ newline :: rest) = payload.
Proof.
  induction payload as [|c payload IH]; simpl; [reflexivity|].
  intros H. apply orb_false_iff in H as [Hc Hp].
  rewrite Hc, (IH Hp). reflexivity.
Qed.

Lemma first_line_app (a b : bytes) :
  has_newline a = true -> first_line (a ++ b) = first_line a.
Proof.
  induction a as [|c a IH]; simpl; [discriminate|].
  destruct (is_newline c); simpl; [reflexivity|].
  intros H. rewrite (IH H). reflexivity.
Qed.

(** The read loop of the client stops with a buffer whose first line
    is the text before the first delimiter of what the peer sends. *)
Lemma receive_first_line (payload rest : bytes) (chunks : list bytes) :
  has_newline payload = false ->
  Forall (fun chunk => chunk <> []) chunks ->
  forall buffer,
    buffer ++ List.concat chunks = payload ++ newline :: rest ->
    exists final,
      receive (map Data chunks) buffer = Some final /\
      first_line final = payload.
Proof.
  intros Hfree Hall. induction Hall as [|chunk later Hchunk _ IH];
    intros buffer Hwhole.
  - simpl in Hwhole. rewrite app_nil_r in Hwhole. subst buffer.
    exists (payload ++ newline :: rest).
    split; [|apply first_line_of_frame; exact Hfree].
    apply receive_done. rewrite has_newline_app. simpl.
    apply orb_true_r.
  - destruct (has_newline buffer) eqn:Hbuffer.
    + exists buffer. split; [apply receive_done; exact Hbuffer|].
      rewrite <- (first_line_app buffer (List.concat (chunk :: later)) Hbuffer).
      rewrite Hwhole. apply first_line_of_frame. exact Hfree.
    + destruct chunk as [|x chunk]; [contradiction|].
      cbn [map receive]. rewrite Hbuffer.
      apply IH. rewrite <- Hwhole. cbn [List.concat].
      rewrite app_assoc. reflexivity.
Qed.

(** X10. [_send_command] reads exactly the first frame the addon writes,
    in whatever pieces it arrives and whatever follows it: when the
    connection is made and the request sent, the outcome is what the
    function makes of the parsed text of that frame. *)
Theorem send_command_reads_the_first_frame
        (P : peer) (command : pystr) (params : option pyval) (line : bytes)
        (response parsed : pyval) (payload rest : bytes)
        (chunks : list bytes) :
  request_line command params = Some line ->
  connect P = Connected ->
  sendall_ok P = true ->
  incoming P = map Data chunks ->
  Forall (fun chunk => chunk <> []) chunks ->
  dumps response = Some payload ->
  List.concat chunks = payload ++ newline :: rest ->
  loads P (text_of_bytes payload) = Loaded parsed ->
  _send_command P command params = interpret parsed.
Proof.
  intros Hline Hconnect Hsend Hincoming Hall Hdumps Hwhole Hloads.
  pose proof (dumps_printable _ Hdumps) as Hprint.
  destruct (@receive_first_line payload rest chunks
              (printable_free _ Hprint) Hall [] Hwhole)
    as (final & Hreceive & Hfirst).
  unfold _send_command.
  rewrite Hline, Hconnect, Hsend, Hincoming, Hreceive, Hfirst.
  unfold parse. rewrite (decode_printable _ Hprint), Hloads. reflexivity.
Qed.

End ClientEnd.

(** ** The two ends together *)

Section TwoEnds.

Import Client.

Variable host : Type.
Variable E : environment host.

(** The five shapes of a response of the addon. *)
Lemma respond_shapes (n : nat) (line : bytes) (s s' : host) (r : pyval) :
  respond E n line s = (Some r, s') ->
  (exists value, r = success value) \/
  (exists description trace, r = handler_failure description trace) \/
  (exists shown, r = unknown_command shown) \/
  r = timeout_response \/
  (exists message, r = invalid_json message).
Proof.
  unfold respond.
  destruct (Utf8.decode line) as [text|]; [|discriminate].
  destruct (json_loads E text) as [data|message|]; [| |discriminate].
  - unfold dispatch. destruct (served E n);
      [|intros H; injection H as <- _; auto].
    unfold _handle_command.
    destruct data as [| | | | | |entries|];
      try (intros H; injection H as <- _; auto 6).
    destruct (handlers_get _) as [h|shown|].
    + destruct (call E h _ s) as [[value|description trace|] s1];
        intros H; injection H as <- _; eauto 8.
    + intros H; injection H as <- _; eauto 8.
    + intros H; injection H as <- _; auto 6.
  - intros H; injection H as <- _. eauto 8.
Qed.

(** X11. Every response the addon can write is understood by
    [_send_command]: a success gives the caller the value of the command
    body; each of the failures (a body that raised, an unknown command, a
    timeout, a line that is not JSON) raises [RuntimeError] with the
    text found under [error].  No response of the addon makes the client
    return a value for a failure or fail on the shape of the response. *)
Theorem every_response_is_understood
        (n : nat) (line : bytes) (s s' : host) (r : pyval) :
  respond E n line s = (Some r, s') ->
  (exists value, r = success value /\ interpret r = Gives value) \/
  (exists message,
      field r "ok" = Some (PBool false) /\
      field r "error" = Some (PStr message) /\
      interpret r = Raise (RuntimeError (PStr message))).
Proof.
  intros H. apply respond_shapes in H.
  destruct H as [[value ->] | [(d & t & ->) | [[shown ->] | [-> | [m ->]]]]].
  - left. exists value. split; reflexivity.
  - right. exists d. repeat split.
  - right. eexists. repeat split.
  - right. eexists. repeat split.
  - right. eexists. repeat split.
Qed.

End TwoEnds.

Section Tools.

Import Client.

(** X12. Every command that a tool of the MCP server sends is in the
    table of the addon, so no tool is answered with the unknown command
    failure; the table has three commands more, which no tool sends. *)
Theorem every_tool_command_is_registered (name : pystr) :
  (In name tool_commands -> exists h, find_name handlers name = Some h) /\
  filter (fun k => negb (existsb (pystr_eqb k) tool_commands)) keys
  = map str ["create_sphere"; "create_circle"; "create_bezier_curve"]%string.
Proof.
  split; [|vm_compute; reflexivity].
  intros Hin.
  assert (Hall : forallb has_handler tool_commands = true)
    by (vm_compute; reflexivity).
  rewrite forallb_forall in Hall. specialize (Hall name Hin).
  unfold has_handler in Hall.
  destruct (find_name handlers name) as [h|]; [eauto|discriminate].
Qed.

(** X13. When the peer closes the connection before a whole line has
    arrived (the addon does so, with nothing written, when its thread
    crashes on a request), [_send_command] does not report the missing
    newline: it parses whatever text has arrived, the empty text if
    there was none. *)
Theorem truncated_response_is_parsed_as_it_is
        (P : peer) (command : pystr) (params : option pyval) (line : bytes)
        (chunks : list bytes) :
  request_line command params = Some line ->
  connect P = Connected ->
  sendall_ok P = true ->
  incoming P = map Data chunks ->
  Forall (fun chunk => chunk <> []) chunks ->
  has_newline (List.concat chunks) = false ->
  _send_command P command params = parse P (List.concat chunks).
Proof.
  intros Hline Hconnect Hsend Hincoming Hall Hfree.
  assert (Hreceive : forall buffer,
             has_newline (buffer ++ List.concat chunks) = false ->
             receive (map Data chunks) buffer
             = Some (buffer ++ List.concat chunks)).
  { clear Hincoming Hfree.
    induction Hall as [|chunk later Hchunk _ IH]; intros buffer Hbuffer.
    - simpl in *. rewrite app_nil_r in *. rewrite Hbuffer. reflexivity.
    - destruct chunk as [|x chunk]; [contradiction|].
      cbn [map receive List.concat] in *.
      assert (Hnow : has_newline buffer = false).
      { rewrite has_newline_app in Hbuffer.
        apply orb_false_iff in Hbuffer. tauto. }
      rewrite Hnow, app_assoc. apply IH. rewrite <- app_assoc. exact Hbuffer. }
  assert (Hfirst : forall b, has_newline b = false -> first_line b = b).
  { induction b as [|c b IH]; simpl; [reflexivity|].
    intros H. apply orb_false_iff in H as [Hc Hb].
    rewrite Hc, (IH Hb). reflexivity. }
  unfold _send_command.
  rewrite Hline, Hconnect, Hsend, Hincoming, (Hreceive [] Hfree).
  cbn [app]. rewrite (Hfirst _ Hfree). reflexivity.
Qed.

End Tools.

(** ** The server threads, the flag and the panel *)

Module ServerFacts.
Import Lifecycle.
Import Panel.

Lemma thread_step_keeps_globals (ev : event) (s : server) :
  thread_step ev = true ->
  _running (apply ev s) = _running s /\
  _server_thread (apply ev s) = _server_thread s.
Proof.
  destruct ev as [| | | |t ok|t a]; simpl; try discriminate; intros _.
  - unfold bound. destruct (phase_of s t) as [[]|]; [destruct ok| |];
      simpl; auto.
  - unfold poll. destruct (phase_of s t) as [[]|];
      [|destruct (_running s) eqn:Hrun; [destruct a|]|]; simpl; auto.
Qed.

Lemma thread_steps_keep_globals (evs : list event) :
  forall s,
    forallb thread_step evs = true ->
    _running (run evs s) = _running s /\
    _server_thread (run evs s) = _server_thread s.
Proof.
  induction evs as [|ev evs IH]; intros s Hevs; [auto|].
  simpl in Hevs. apply andb_true_iff in Hevs as [Hev Hevs].
  simpl. destruct (IH (apply ev s) Hevs) as [-> ->].
  apply thread_step_keeps_globals. exact Hev.
Qed.

(** X14. The threads of the server never write the flag: whatever
    happens to them ([bind] fails because the port is taken, [accept]
    raises), [_running] and [_server_thread] stay as the operators left
    them.  So once started, the server is reported as running, and the
    start operator is refused with its warning, even when no thread is
    left to accept connections; and the panel shows the same. *)
Theorem dead_thread_leaves_the_flag_up (evs : list event) (s : server) :
  forallb thread_step evs = true ->
  _running (run evs s) = _running s /\
  _server_thread (run evs s) = _server_thread s /\
  draw (run evs s) = draw s /\
  (_running s = true ->
   MCP_OT_StartServer_execute (run evs s) = (already_running, run evs s)).
Proof.
  intros Hevs.
  destruct (thread_steps_keep_globals evs s Hevs) as [Hflag Hthread].
  repeat split; auto.
  - unfold draw. rewrite Hflag. reflexivity.
  - intros Hup. unfold MCP_OT_StartServer_execute.
    rewrite Hflag, Hup. reflexivity.
Qed.

(** The port is taken when the thread of the first start binds. *)
Lemma dead_thread_leaves_the_flag_up_witness :
  let s := run [Start] initial in
  forallb thread_step [Bound 0 false] = true /\
  _running s = true /\
  accept_loops (run [Bound 0 false] s) = 0 /\
  _running (run [Bound 0 false] s) = true /\
  MCP_OT_StartServer_execute (run [Bound 0 false] s)
  = (already_running, run [Bound 0 false] s).
Proof.
  intros s.
  pose proof (@dead_thread_leaves_the_flag_up [Bound 0 false] s eq_refl)
    as (Hflag & _ & _ & Hstart).
  split; [reflexivity|]. split; [reflexivity|]. split; [reflexivity|].
  split; [exact Hflag | exact (Hstart eq_refl)].
Defined.

Lemma without_removes (t : nat) (l : list (nat * phase)) :
  find (fun x => Nat.eqb (fst x) t) (without t l) = None.
Proof.
  unfold without. induction l as [|x l IH]; simpl; [reflexivity|].
  destruct (Nat.eqb (fst x) t) eqn:Hx; simpl; [exact IH|].
  rewrite Hx. exact IH.
Qed.

Lemma without_shorter (t : nat) (l : list (nat * phase)) (x : nat * phase) :
  find (fun x => Nat.eqb (fst x) t) l = Some x ->
  List.length (without t l) < List.length l.
Proof.
  unfold without. induction l as [|y l IH]; simpl; [discriminate|].
  destruct (Nat.eqb (fst y) t) eqn:Hy; simpl.
  - intros _.
    pose proof (filter_length_le (fun l0 => negb (Nat.eqb (fst l0) t)) l).
    lia.
  - intros H. specialize (IH H). lia.
Qed.

(** X15. Once the flag is down, a thread that is in the accept loop
    leaves it the next time it looks at the flag, whatever [accept] would
    have done: the thread is gone and there is one loop less. *)
Theorem stopped_loop_ends_at_its_next_poll
        (t : nat) (a : accepted) (s : server) :
  _running s = false ->
  phase_of s t = Some Accepting ->
  phase_of (poll t a s) t = None /\
  accept_loops (poll t a s) < accept_loops s /\
  _running (poll t a s) = false.
Proof.
  intros Hdown Hphase. unfold poll. rewrite Hphase, Hdown.
  unfold phase_of, accept_loops. simpl.
  rewrite without_removes. split; [reflexivity|]. split; [|exact Hdown].
  unfold phase_of in Hphase.
  destruct (find (fun l => Nat.eqb (fst l) t) (loops s)) as [x|] eqn:Hfind;
    [|discriminate].
  eapply without_shorter. exact Hfind.
Qed.

Lemma stopped_loop_ends_at_its_next_poll_witness :
  let s := run [Start; Bound 0 true; Halt] initial in
  _running s = false /\
  phase_of s 0 = Some Accepting /\
  phase_of (poll 0 Client s) 0 = None /\
  accept_loops (poll 0 Client s) < accept_loops s.
Proof.
  intros s.
  pose proof (@stopped_loop_ends_at_its_next_poll 0 Client s eq_refl eq_refl)
    as (Hgone & Hless & _).
  split; [reflexivity|]. split; [reflexivity|].
  split; [exact Hgone | exact Hless].
Defined.

(** X16. The button that the panel shows is always the one that works:
    pressing it runs an operator that returns [FINISHED], never the one
    that would be cancelled with a warning; the flag is flipped, and the
    panel drawn next shows the other button. *)
Theorem panel_button_is_never_cancelled (s : server) :
  exists r s',
    press (button (draw s)) s = Some (r, s') /\
    result r = FINISHED /\
    severity r = INFO /\
    _running s' = negb (_running s) /\
    button (draw s') <> button (draw s).
Proof.
  unfold draw, press, MCP_OT_StartServer_execute, MCP_OT_StopServer_execute.
  destruct (_running s) eqn:Hrun; simpl; rewrite ?Hrun; simpl;
    eexists; eexists; (split; [reflexivity|]);
    repeat split; simpl; discriminate.
Qed.

End ServerFacts.

(** ** Removing objects *)

Module SceneFacts.
Import Scene.

Lemma object_eqb_refl (o : object) : object_eqb o o = true.
Proof.
  unfold object_eqb. apply andb_true_iff.
  split; apply pystr_eqb_eq; reflexivity.
Qed.

Lemma object_eqb_eq (a b : object) : object_eqb a b = true -> a = b.
Proof.
  unfold object_eqb. intros H. apply andb_true_iff in H as [Hn Ht].
  apply pystr_eqb_eq in Hn, Ht. destruct a, b. simpl in *. congruence.
Qed.

(** Removing an object that is not spared from a collection whose
    first part is spared takes it out of the second part. *)
Lemma remove_behind_spared (kc kl : pyval) (front rest : objects) (o : object) :
  forallb (spared kc kl) front = true ->
  spared kc kl o = false ->
  objects_remove (front ++ o :: rest) o = front ++ rest.
Proof.
  intros Hfront Ho. induction front as [|x front IH]; simpl.
  - rewrite object_eqb_refl. reflexivity.
  - simpl in Hfront. apply andb_true_iff in Hfront as [Hx Hfront].
    destruct (object_eqb x o) eqn:Heq.
    + apply object_eqb_eq in Heq. subst x. congruence.
    + rewrite (IH Hfront). reflexivity.
Qed.

Lemma clear_loop_filters (kc kl : pyval) (copy : list object) :
  forall (removed : list pystr) (front : objects),
    forallb (spared kc kl) front = true ->
    clear_loop kc kl copy removed (front ++ copy)
    = (removed
       ++ map obj_name (filter (fun o => negb (spared kc kl o)) copy),
       front ++ filter (spared kc kl) copy).
Proof.
  induction copy as [|o copy IH]; intros removed front Hfront.
  - simpl. rewrite !app_nil_r. reflexivity.
  - cbn [clear_loop filter]. destruct (spared kc kl o) eqn:Ho; cbn [negb].
    + change (front ++ o :: copy) with (front ++ [o] ++ copy).
      rewrite app_assoc, IH.
      * rewrite <- app_assoc. reflexivity.
      * rewrite forallb_app, Hfront. simpl. rewrite Ho. reflexivity.
    + rewrite (@remove_behind_spared kc kl front copy o Hfront Ho), IH by auto.
      cbn [map]. rewrite <- app_assoc. reflexivity.
Qed.

(** X17. [cmd_clear_scene] on a dict of parameters removes every object
    but the cameras, when [keep_camera] is true (or absent), and the
    lights, when [keep_lights] is true (or absent): what is left is the
    spared objects in their order, the names returned are those of the
    others, in order, and [count] is their number. *)
Theorem clear_scene_removes_all_but_the_spared
        (entries : list (pykey * pyval)) (objs : objects) :
  let keep_camera := dict_get entries (str "keep_camera") (PBool true) in
  let keep_lights := dict_get entries (str "keep_lights") (PBool true) in
  let gone := filter (fun o => negb (spared keep_camera keep_lights o)) objs in
  cmd_clear_scene (PDict entries) objs
  = (Done (PDict [entry "removed" (PList (map PStr (map obj_name gone)));
                  entry "count" (PInt (Z.of_nat (List.length gone)))]),
     filter (spared keep_camera keep_lights) objs).
Proof.
  intros kc kl gone. unfold cmd_clear_scene. fold kc kl.
  pose proof (@clear_loop_filters kc kl objs [] [] eq_refl) as Hloop.
  cbn [app] in Hloop. rewrite Hloop.
  unfold cleared. rewrite length_map. reflexivity.
Qed.

Lemma filter_twice (A : Type) (keep : A -> bool) (l : list A) :
  filter keep (filter keep l) = filter keep l /\
  filter (fun x => negb (keep x)) (filter keep l) = [].
Proof.
  induction l as [|x l [IHsame IHnone]]; [split; reflexivity|].
  simpl. destruct (keep x) eqn:Hx; [|split; assumption].
  simpl. rewrite Hx, IHsame. split; [reflexivity|exact IHnone].
Qed.

(** X18. Clearing the scene twice with the same parameters is clearing
    it once: the second call removes nothing, returns an empty list with
    [count] 0 and leaves the objects as the first call left them. *)
Theorem clear_scene_twice_is_once
        (entries : list (pykey * pyval)) (objs : objects) :
  let left := snd (cmd_clear_scene (PDict entries) objs) in
  cmd_clear_scene (PDict entries) left
  = (Done (PDict [entry "removed" (PList []); entry "count" (PInt 0)]), left).
Proof.
  set (kc := dict_get entries (str "keep_camera") (PBool true)).
  set (kl := dict_get entries (str "keep_lights") (PBool true)).
  assert (Hclear : forall l,
             cmd_clear_scene (PDict entries) l
             = (Done (cleared
                        (map obj_name
                           (filter (fun o => negb (spared kc kl o)) l))),
                filter (spared kc kl) l)).
  { intros l. unfold cmd_clear_scene. fold kc kl.
    pose proof (@clear_loop_filters kc kl l [] [] eq_refl) as Hloop.
    cbn [app] in Hloop. rewrite Hloop. reflexivity. }
  intros left. unfold left. rewrite (Hclear objs). cbn [snd]. rewrite Hclear.
  destruct (filter_twice (spared kc kl) objs) as [-> ->]. reflexivity.
Qed.

Lemma get_after_remove (objs : objects) (o : object) (text : pystr) :
  NoDup (map obj_name objs) ->
  objects_get objs text = Some o ->
  objects_get (objects_remove objs o) text = None /\
  List.length (objects_remove objs o) + 1 = List.length objs /\
  forall other,
    other <> text ->
    objects_get (objects_remove objs o) other = objects_get objs other.
Proof.
  unfold objects_get.
  induction objs as [|x objs IH]; simpl; [discriminate|].
  intros Hnodup Hget. inversion Hnodup as [|? ? Hfresh Hrest]; subst.
  destruct (pystr_eqb (obj_name x) text) eqn:Hx.
  - injection Hget as ->. rewrite object_eqb_refl.
    apply pystr_eqb_eq in Hx.
    split; [|split; [lia|]].
    + destruct (find (fun o0 => pystr_eqb (obj_name o0) text) objs)
        as [y|] eqn:Hfind; [|reflexivity].
      apply find_some in Hfind as [Hin Hy]. apply pystr_eqb_eq in Hy.
      exfalso. apply Hfresh. rewrite Hx, <- Hy. apply in_map. exact Hin.
    + intros other Hother.
      destruct (pystr_eqb (obj_name o) other) eqn:Ho; [|reflexivity].
      apply pystr_eqb_eq in Ho. congruence.
  - destruct (object_eqb x o) eqn:Heq.
    + apply object_eqb_eq in Heq. subst x.
      apply find_some in Hget as [_ Ho]. congruence.
    + destruct (IH Hrest Hget) as (Hnone & Hlen & Hothers).
      simpl. rewrite Hx. split; [exact Hnone|]. split; [lia|].
      intros other Hother. rewrite (Hothers other Hother). reflexivity.
Qed.

(** X19. [cmd_delete_object], called with the name of an object as a
    string, removes that object and no other when there is one (object
    names being unique): the name is returned under [deleted], the
    collection has one object less, the name is not found any more, every
    other name is found as before.  When there is none, nothing changes
    and [ValueError] is raised with the text naming the object; so
    deleting the same name a second time fails with that error. *)
Theorem delete_object_removes_one_object
        (entries : list (pykey * pyval)) (text : pystr) (objs : objects) :
  dict_lookup entries (str "name") = Some (PStr text) ->
  NoDup (map obj_name objs) ->
  let not_found :=
    ValueError (str "Oggetto '" ++ text ++ str "' non trovato.") in
  (objects_get objs text = None ->
   cmd_delete_object (PDict entries) objs = (Fails not_found, objs)) /\
  (forall o,
      objects_get objs text = Some o ->
      exists objs',
        cmd_delete_object (PDict entries) objs
        = (Done (PDict [entry "deleted" (PStr text)]), objs') /\
        List.length objs' + 1 = List.length objs /\
        objects_get objs' text = None /\
        (forall other,
            other <> text -> objects_get objs' other = objects_get objs other) /\
        cmd_delete_object (PDict entries) objs' = (Fails not_found, objs')).
Proof.
  intros Hname Hnodup not_found.
  assert (Hmissing : forall l,
             objects_get l text = None ->
             cmd_delete_object (PDict entries) l = (Fails not_found, l)).
  { intros l Hnone. unfold cmd_delete_object, _get_obj.
    rewrite Hname, Hnone. reflexivity. }
  split; [apply Hmissing|].
  intros o Hget.
  destruct (@get_after_remove objs o text Hnodup Hget)
    as (Hnone & Hlen & Hothers).
  exists (objects_remove objs o).
  split.
  { unfold cmd_delete_object, _get_obj. rewrite Hname, Hget. reflexivity. }
  repeat split; auto.
Qed.

Lemma delete_object_removes_one_object_witness :
  let entries := [entry "name" (PStr (str "Cube"))] in
  dict_lookup entries (str "name") = Some (PStr (str "Cube")) /\
  NoDup (map obj_name studio) /\
  objects_get studio (str "Cube")
  = Some {| obj_name := str "Cube"; obj_type := str "MESH" |} /\
  exists objs',
    cmd_delete_object (PDict entries) studio
    = (Done (PDict [entry "deleted" (PStr (str "Cube"))]), objs') /\
    List.length objs' + 1 = List.length studio /\
    objects_get objs' (str "Cube") = None.
Proof.
  intros entries.
  assert (Hnodup : NoDup (map obj_name studio)).
  { repeat constructor; simpl; intros H;
      repeat (destruct H as [H|H]; [discriminate H|]); exact H. }
  split; [reflexivity|]. split; [exact Hnodup|]. split; [reflexivity|].
  destruct (proj2 (@delete_object_removes_one_object entries (str "Cube")
                     studio eq_refl Hnodup) _ eq_refl)
    as (objs' & Hrun & Hlen & Hnone & _).
  exists objs'. auto.
Defined.


End SceneFacts.

(** ** More of the code, on examples *)

Section MoreExamples.

Import Client.



Lemma unterminated_tail_is_ignored_witness :
  has_newline (Example.payload Example.fly) = false /\
  _handle_client Example.calm
    [Data (Example.line_of Example.ping ++ Example.payload Example.fly)] 0
  = _handle_client Example.calm [Data (Example.line_of Example.ping)] 0.
Proof.
  split; [reflexivity|].
  exact (@unterminated_tail_is_ignored _ Example.calm
           (Example.line_of Example.ping) (Example.payload Example.fly) 0
           eq_refl).
Defined.

Lemma blank_lines_are_passed_over_witness :
  forallb is_space (lit "  " ++ [x0d]) = true /\
  serve_line Example.calm (lit "  " ++ [x0d]) {| scene := 0; sent := [] |}
  = Continue {| scene := 0; sent := [] |}.
Proof.
  split; [reflexivity|].
  exact (proj1 (@blank_lines_are_passed_over _ Example.calm
                  (lit "  " ++ [x0d]) [] {| scene := 0; sent := [] |})
               eq_refl).
Defined.

Lemma send_command_reads_the_first_frame_witness :
  let P := ClientExample.answering ClientExample.pong
             ClientExample.two_pieces in
  request_line (str "ping") None = Some (Example.line_of Example.ping) /\
  Forall (fun chunk : bytes => chunk <> []) ClientExample.two_pieces /\
  dumps ClientExample.pong = Some (Example.payload ClientExample.pong) /\
  List.concat ClientExample.two_pieces
  = Example.payload ClientExample.pong
    ++ newline :: firstn 7 (Example.line_of ClientExample.pong) /\
  loads P (text_of_bytes (Example.payload ClientExample.pong))
  = Loaded ClientExample.pong /\
  _send_command P (str "ping") None = interpret ClientExample.pong.
Proof.
  intros P.
  assert (Hall : Forall (fun chunk : bytes => chunk <> [])
                   ClientExample.two_pieces)
    by (repeat constructor; intros H; vm_compute in H; discriminate H).
  assert (Hwhole : List.concat ClientExample.two_pieces
                   = Example.payload ClientExample.pong
                     ++ newline :: firstn 7 (Example.line_of ClientExample.pong))
    by (vm_compute; reflexivity).
  assert (Hloads : loads P (text_of_bytes (Example.payload ClientExample.pong))
                   = Loaded ClientExample.pong)
    by (vm_compute; reflexivity).
  split; [reflexivity|]. split; [exact Hall|]. split; [reflexivity|].
  split; [exact Hwhole|]. split; [exact Hloads|].
  exact (@send_command_reads_the_first_frame P (str "ping") None
           (Example.line_of Example.ping) ClientExample.pong ClientExample.pong
           (Example.payload ClientExample.pong)
           (firstn 7 (Example.line_of ClientExample.pong))
           ClientExample.two_pieces
           eq_refl eq_refl eq_refl eq_refl Hall eq_refl Hwhole Hloads).
Defined.

Lemma every_response_is_understood_witness :
  respond Example.calm 0 (Example.payload Example.fly) 0
  = (Some (unknown_command (str "fly")), 0) /\
  ((exists value,
       unknown_command (str "fly") = success value /\
       interpret (unknown_command (str "fly")) = Gives value) \/
   (exists message,
       field (unknown_command (str "fly")) "ok" = Some (PBool false) /\
       field (unknown_command (str "fly")) "error" = Some (PStr message) /\
       interpret (unknown_command (str "fly"))
       = Raise (RuntimeError (PStr message)))).
Proof.
  assert (H : respond Example.calm 0 (Example.payload Example.fly) 0
              = (Some (unknown_command (str "fly")), 0))
    by (vm_compute; reflexivity).
  split; [exact H|].
  exact (@every_response_is_understood _ Example.calm 0
           (Example.payload Example.fly) 0 0 (unknown_command (str "fly")) H).
Defined.

Lemma every_tool_command_is_registered_witness :
  In (str "scale") tool_commands /\
  exists h, find_name handlers (str "scale") = Some h.
Proof.
  assert (Hin : In (str "scale") tool_commands)
    by (unfold tool_commands; apply in_map; simpl; tauto).
  split; [exact Hin|].
  exact (proj1 (every_tool_command_is_registered (str "scale")) Hin).
Defined.

Lemma truncated_response_is_parsed_as_it_is_witness :
  let P := ClientExample.answering ClientExample.pong
             ClientExample.cut_short in
  request_line (str "ping") None = Some (Example.line_of Example.ping) /\
  Forall (fun chunk : bytes => chunk <> []) ClientExample.cut_short /\
  has_newline (List.concat ClientExample.cut_short) = false /\
  _send_command P (str "ping") None
  = parse P (List.concat ClientExample.cut_short).
Proof.
  intros P.
  assert (Hall : Forall (fun chunk : bytes => chunk <> [])
                   ClientExample.cut_short)
    by (repeat constructor; intros H; vm_compute in H; discriminate H).
  split; [reflexivity|]. split; [exact Hall|]. split; [reflexivity|].
  exact (@truncated_response_is_parsed_as_it_is P (str "ping") None
           (Example.line_of Example.ping) ClientExample.cut_short
           eq_refl eq_refl eq_refl eq_refl Hall eq_refl).
Defined.

End MoreExamples.

(** ** Cutting loses nothing *)

Section Cutting.

(** X22. The cut of the receive buffer neither loses nor invents a
    byte: the complete lines, each followed by the delimiter, and then
    the remainder, are the stream received; and neither a line nor the
    remainder holds a delimiter. *)
Theorem cut_keeps_every_byte (stream : bytes) :
  stream_of (complete_lines stream) ++ remainder stream = stream /\
  Forall (fun line => has_newline line = false) (complete_lines stream) /\
  has_newline (remainder stream) = false.
Proof.
  unfold complete_lines, remainder, stream_of.
  induction stream as [|b stream (Hwhole & Hlines & Htail)];
    [repeat split; constructor|].
  simpl. destruct (cut stream) as [lines tail]. simpl in *.
  destruct (is_newline b) eqn:Hb.
  - simpl. unfold is_newline in Hb. apply Byte.byte_dec_bl in Hb. subst b.
    rewrite Hwhole. repeat split; auto.
  - destruct lines as [|first others]; simpl in *.
    + subst tail. rewrite Hb. repeat split; auto.
    + inversion Hlines as [|? ? Hfirst Hothers]; subst.
      repeat split; auto.
      constructor; [|exact Hothers]. simpl. rewrite Hb. exact Hfirst.
Qed.

End Cutting.
